(** * Stock recommendation scorer of the stock API (usecase/stock_usecase.go)

    Shallow embedding of [StockUseCase.GetRecommendations] and of the scoring
    helpers it calls, plus the limit handling of the HTTP handler
    [StockHandler.GetRecommendations].

    Go strings are byte strings: they are modelled as [String.string], whose
    characters are bytes.  [strings.ToLower] and [strings.TrimSpace] decode
    them as UTF-8 and use the case and white-space tables of Go's [unicode]
    package, as Go does.  Go's float64 is modelled by Rocq's primitive
    binary64 floats ([PrimFloat.float]), so rounding and NaN behave as in Go. *)

From Stdlib Require Import ZArith String Ascii Floats Lia.
From stdpp Require Import base list.

Local Open Scope Z_scope.
Local Set Warnings "-inexact-float".

(** ** UTF-8 decoding and encoding of Go's [unicode/utf8] *)

Module Utf8.

Definition RuneError : Z := 0xFFFD.
Definition RuneSelf : Z := 0x80.
Definition MaxRune : Z := 0x10FFFF.
Definition UTFMax : Z := 4.

(** A Go byte is a character of the string; [byte c] is its value and
    [char b] the byte [byte(b)] (the low 8 bits of [b]). *)
Definition byte (c : ascii) : Z := Z.of_N (N_of_ascii c).
Definition char (b : Z) : ascii := ascii_of_N (Z.to_N (Z.land b 255)).

Definition t2 : Z := 0xC0.
Definition t3 : Z := 0xE0.
Definition t4 : Z := 0xF0.
Definition tx : Z := 0x80.
Definition maskx : Z := 0x3F.
Definition mask2 : Z := 0x1F.
Definition mask3 : Z := 0x0F.
Definition mask4 : Z := 0x07.
Definition rune1Max : Z := 0x7F.
Definition rune2Max : Z := 0x7FF.
Definition rune3Max : Z := 0xFFFF.
Definition surrogateMin : Z := 0xD800.
Definition surrogateMax : Z := 0xDFFF.
Definition locb : Z := 0x80.
Definition hicb : Z := 0xBF.

(** The [first] table with its [acceptRanges]: an ASCII byte, an invalid
    first byte, or the first byte of a sequence of [sz] bytes whose second
    byte lies in [lo..hi]. *)
Inductive FirstInfo := FirstASCII | FirstInvalid | FirstSeq (sz lo hi : Z).

Definition first (b : Z) : FirstInfo :=
  if b <? 0x80 then FirstASCII
  else if b <? 0xC2 then FirstInvalid
  else if b <? 0xE0 then FirstSeq 2 locb hicb
  else if b =? 0xE0 then FirstSeq 3 0xA0 hicb
  else if b <? 0xED then FirstSeq 3 locb hicb
  else if b =? 0xED then FirstSeq 3 locb 0x9F
  else if b <? 0xF0 then FirstSeq 3 locb hicb
  else if b =? 0xF0 then FirstSeq 4 0x90 hicb
  else if b <? 0xF4 then FirstSeq 4 locb hicb
  else if b =? 0xF4 then FirstSeq 4 locb 0x8F
  else FirstInvalid.

(** [utf8.DecodeRuneInString]: the first rune of [s] and its width; an
    invalid or truncated sequence gives [(RuneError, 1)], the empty string
    [(RuneError, 0)]. *)
Definition DecodeRuneInString (s : string) : Z * Z :=
  match s with
  | EmptyString => (RuneError, 0)
  | String c0 s1 =>
      let s0 := byte c0 in
      match first s0 with
      | FirstASCII => (s0, 1)
      | FirstInvalid => (RuneError, 1)
      | FirstSeq sz lo hi =>
          if Z.of_nat (String.length s) <? sz then (RuneError, 1) else
          match s1 with
          | EmptyString => (RuneError, 1)
          | String c1 s2 =>
              let b1 := byte c1 in
              if (b1 <? lo) || (hi <? b1) then (RuneError, 1)
              else if sz <=? 2 then
                (Z.lor (Z.shiftl (Z.land s0 mask2) 6) (Z.land b1 maskx), 2)
              else
              match s2 with
              | EmptyString => (RuneError, 1)
              | String c2 s3 =>
                  let b2 := byte c2 in
                  if (b2 <? locb) || (hicb <? b2) then (RuneError, 1)
                  else if sz <=? 3 then
                    (Z.lor (Z.lor (Z.shiftl (Z.land s0 mask3) 12) (Z.shiftl (Z.land b1 maskx) 6))
                       (Z.land b2 maskx), 3)
                  else
                  match s3 with
                  | EmptyString => (RuneError, 1)
                  | String c3 _ =>
                      let b3 := byte c3 in
                      if (b3 <? locb) || (hicb <? b3) then (RuneError, 1)
                      else
                        (Z.lor (Z.lor (Z.lor (Z.shiftl (Z.land s0 mask4) 18)
                                             (Z.shiftl (Z.land b1 maskx) 12))
                                      (Z.shiftl (Z.land b2 maskx) 6))
                               (Z.land b3 maskx), 4)
                  end
              end
          end
      end
  end.

(** [utf8.RuneStart]: [b] is not a continuation byte. *)
Definition RuneStart (b : Z) : bool := negb (Z.land b 0xC0 =? 0x80).

(** The byte at index [i] of [s] ([s[i]], for [0 <= i < len(s)]). *)
Definition byte_at (s : string) (i : Z) : Z :=
  match String.get (Z.to_nat i) s with Some c => byte c | None => 0 end.

(** The slice [s[i:j]]. *)
Definition slice (s : string) (i j : Z) : string :=
  substring (Z.to_nat i) (Z.to_nat (j - i)) s.

(** The loop [for start--; start >= lim; start-- { if RuneStart(s[start]) { break } }]
    of [DecodeLastRuneInString], entered with [start] already decremented. *)
Fixpoint back_to_start (fuel : nat) (s : string) (start lim : Z) : Z :=
  match fuel with
  | O => start
  | S fuel' =>
      if start <? lim then start
      else if RuneStart (byte_at s start) then start
      else back_to_start fuel' s (start - 1) lim
  end.

(** [utf8.DecodeLastRuneInString]: the last rune of [s] and its width. *)
Definition DecodeLastRuneInString (s : string) : Z * Z :=
  let end_ := Z.of_nat (String.length s) in
  if end_ =? 0 then (RuneError, 0) else
  let start := end_ - 1 in
  let r := byte_at s start in
  if r <? RuneSelf then (r, 1) else
  let lim := Z.max (end_ - UTFMax) 0 in
  let start := back_to_start 5 s (start - 1) lim in
  let start := Z.max start 0 in
  let '(r, size) := DecodeRuneInString (slice s start end_) in
  if negb (start + size =? end_) then (RuneError, 1) else (r, size).

(** [utf8.EncodeRune] (and [utf8.AppendRune], which [strings.Builder.WriteRune]
    uses): the UTF-8 bytes of [r]; a surrogate or an out-of-range value is
    written as [RuneError]. *)
Definition EncodeRune (r : Z) : string :=
  let i := r mod 2 ^ 32 in
  if i <=? rune1Max then String (char r) EmptyString
  else if i <=? rune2Max then
    String (char (Z.lor t2 (Z.land (Z.shiftr r 6) 255)))
      (String (char (Z.lor tx (Z.land (Z.land r 255) maskx))) EmptyString)
  else if (i <? surrogateMin) || ((surrogateMax <? i) && (i <=? rune3Max)) then
    String (char (Z.lor t3 (Z.land (Z.shiftr r 12) 255)))
      (String (char (Z.lor tx (Z.land (Z.land (Z.shiftr r 6) 255) maskx)))
        (String (char (Z.lor tx (Z.land (Z.land r 255) maskx))) EmptyString))
  else if (rune3Max <? i) && (i <=? MaxRune) then
    String (char (Z.lor t4 (Z.land (Z.shiftr r 18) 255)))
      (String (char (Z.lor tx (Z.land (Z.land (Z.shiftr r 12) 255) maskx)))
        (String (char (Z.lor tx (Z.land (Z.land (Z.shiftr r 6) 255) maskx)))
          (String (char (Z.lor tx (Z.land (Z.land r 255) maskx))) EmptyString)))
  else
    String (char (Z.lor t3 (Z.land (Z.shiftr RuneError 12) 255)))
      (String (char (Z.lor tx (Z.land (Z.land (Z.shiftr RuneError 6) 255) maskx)))
        (String (char (Z.lor tx (Z.land (Z.land RuneError 255) maskx))) EmptyString)).

(** [utf8.ValidRune]. *)
Definition ValidRune (r : Z) : bool :=
  ((0 <=? r) && (r <? surrogateMin)) || ((surrogateMax <? r) && (r <=? MaxRune)).

(** [s[n:]]. *)
Fixpoint skip (n : nat) (s : string) : string :=
  match n, s with
  | O, _ => s
  | _, EmptyString => EmptyString
  | S n', String _ s' => skip n' s'
  end.

(** The runes of [for _, r := range s]: decoded one after the other by
    [DecodeRuneInString], an invalid byte giving [RuneError]. *)
Fixpoint runes_fuel (fuel : nat) (s : string) : list Z :=
  match fuel, s with
  | O, _ => []
  | _, EmptyString => []
  | S fuel', _ =>
      let '(r, size) := DecodeRuneInString s in
      r :: runes_fuel fuel' (skip (Z.to_nat size) s)
  end.

Definition runes (s : string) : list Z := runes_fuel (String.length s) s.

End Utf8.

(** ** Case mapping and white space of Go's [unicode] package *)

Module Unicode.

Definition MaxASCII : Z := 0x7F.
Definition MaxLatin1 : Z := 0xFF.

(** The lower-case column of [unicode.CaseRanges]: [Delta d] maps a rune of
    the range to [r + d]; [UpperLower] marks an alternating sequence of
    upper-case (even offset) and lower-case (odd offset) letters.  Ranges
    whose lower-case delta is 0 are left out.  These are the simple
    lower-case mappings of the Unicode Character Database above ASCII, as
    of version 14.0; version 15.0, which Go 1.23 uses, adds no case pair. *)
Inductive CaseDelta := Delta (d : Z) | UpperLower.

Definition CaseRanges : list (Z * Z * CaseDelta) :=
  [ (0x00C0, 0x00D6, Delta (32));
    (0x00D8, 0x00DE, Delta (32));
    (0x0100, 0x012F, UpperLower);
    (0x0130, 0x0130, Delta (-199));
    (0x0132, 0x0137, UpperLower);
    (0x0139, 0x0148, UpperLower);
    (0x014A, 0x0177, UpperLower);
    (0x0178, 0x0178, Delta (-121));
    (0x0179, 0x017E, UpperLower);
    (0x0181, 0x0181, Delta (210));
    (0x0182, 0x0185, UpperLower);
    (0x0186, 0x0186, Delta (206));
    (0x0187, 0x0187, Delta (1));
    (0x0189, 0x018A, Delta (205));
    (0x018B, 0x018B, Delta (1));
    (0x018E, 0x018E, Delta (79));
    (0x018F, 0x018F, Delta (202));
    (0x0190, 0x0190, Delta (203));
    (0x0191, 0x0191, Delta (1));
    (0x0193, 0x0193, Delta (205));
    (0x0194, 0x0194, Delta (207));
    (0x0196, 0x0196, Delta (211));
    (0x0197, 0x0197, Delta (209));
    (0x0198, 0x0198, Delta (1));
    (0x019C, 0x019C, Delta (211));
    (0x019D, 0x019D, Delta (213));
    (0x019F, 0x019F, Delta (214));
    (0x01A0, 0x01A5, UpperLower);
    (0x01A6, 0x01A6, Delta (218));
    (0x01A7, 0x01A7, Delta (1));
    (0x01A9, 0x01A9, Delta (218));
    (0x01AC, 0x01AC, Delta (1));
    (0x01AE, 0x01AE, Delta (218));
    (0x01AF, 0x01AF, Delta (1));
    (0x01B1, 0x01B2, Delta (217));
    (0x01B3, 0x01B6, UpperLower);
    (0x01B7, 0x01B7, Delta (219));
    (0x01B8, 0x01B8, Delta (1));
    (0x01BC, 0x01BC, Delta (1));
    (0x01C4, 0x01C4, Delta (2));
    (0x01C5, 0x01C5, Delta (1));
    (0x01C7, 0x01C7, Delta (2));
    (0x01C8, 0x01C8, Delta (1));
    (0x01CA, 0x01CA, Delta (2));
    (0x01CB, 0x01DC, UpperLower);
    (0x01DE, 0x01EF, UpperLower);
    (0x01F1, 0x01F1, Delta (2));
    (0x01F2, 0x01F5, UpperLower);
    (0x01F6, 0x01F6, Delta (-97));
    (0x01F7, 0x01F7, Delta (-56));
    (0x01F8, 0x021F, UpperLower);
    (0x0220, 0x0220, Delta (-130));
    (0x0222, 0x0233, UpperLower);
    (0x023A, 0x023A, Delta (10795));
    (0x023B, 0x023B, Delta (1));
    (0x023D, 0x023D, Delta (-163));
    (0x023E, 0x023E, Delta (10792));
    (0x0241, 0x0241, Delta (1));
    (0x0243, 0x0243, Delta (-195));
    (0x0244, 0x0244, Delta (69));
    (0x0245, 0x0245, Delta (71));
    (0x0246, 0x024F, UpperLower);
    (0x0370, 0x0373, UpperLower);
    (0x0376, 0x0376, Delta (1));
    (0x037F, 0x037F, Delta (116));
    (0x0386, 0x0386, Delta (38));
    (0x0388, 0x038A, Delta (37));
    (0x038C, 0x038C, Delta (64));
    (0x038E, 0x038F, Delta (63));
    (0x0391, 0x03A1, Delta (32));
    (0x03A3, 0x03AB, Delta (32));
    (0x03CF, 0x03CF, Delta (8));
    (0x03D8, 0x03EF, UpperLower);
    (0x03F4, 0x03F4, Delta (-60));
    (0x03F7, 0x03F7, Delta (1));
    (0x03F9, 0x03F9, Delta (-7));
    (0x03FA, 0x03FA, Delta (1));
    (0x03FD, 0x03FF, Delta (-130));
    (0x0400, 0x040F, Delta (80));
    (0x0410, 0x042F, Delta (32));
    (0x0460, 0x0481, UpperLower);
    (0x048A, 0x04BF, UpperLower);
    (0x04C0, 0x04C0, Delta (15));
    (0x04C1, 0x04CE, UpperLower);
    (0x04D0, 0x052F, UpperLower);
    (0x0531, 0x0556, Delta (48));
    (0x10A0, 0x10C5, Delta (7264));
    (0x10C7, 0x10C7, Delta (7264));
    (0x10CD, 0x10CD, Delta (7264));
    (0x13A0, 0x13EF, Delta (38864));
    (0x13F0, 0x13F5, Delta (8));
    (0x1C90, 0x1CBA, Delta (-3008));
    (0x1CBD, 0x1CBF, Delta (-3008));
    (0x1E00, 0x1E95, UpperLower);
    (0x1E9E, 0x1E9E, Delta (-7615));
    (0x1EA0, 0x1EFF, UpperLower);
    (0x1F08, 0x1F0F, Delta (-8));
    (0x1F18, 0x1F1D, Delta (-8));
    (0x1F28, 0x1F2F, Delta (-8));
    (0x1F38, 0x1F3F, Delta (-8));
    (0x1F48, 0x1F4D, Delta (-8));
    (0x1F59, 0x1F59, Delta (-8));
    (0x1F5B, 0x1F5B, Delta (-8));
    (0x1F5D, 0x1F5D, Delta (-8));
    (0x1F5F, 0x1F5F, Delta (-8));
    (0x1F68, 0x1F6F, Delta (-8));
    (0x1F88, 0x1F8F, Delta (-8));
    (0x1F98, 0x1F9F, Delta (-8));
    (0x1FA8, 0x1FAF, Delta (-8));
    (0x1FB8, 0x1FB9, Delta (-8));
    (0x1FBA, 0x1FBB, Delta (-74));
    (0x1FBC, 0x1FBC, Delta (-9));
    (0x1FC8, 0x1FCB, Delta (-86));
    (0x1FCC, 0x1FCC, Delta (-9));
    (0x1FD8, 0x1FD9, Delta (-8));
    (0x1FDA, 0x1FDB, Delta (-100));
    (0x1FE8, 0x1FE9, Delta (-8));
    (0x1FEA, 0x1FEB, Delta (-112));
    (0x1FEC, 0x1FEC, Delta (-7));
    (0x1FF8, 0x1FF9, Delta (-128));
    (0x1FFA, 0x1FFB, Delta (-126));
    (0x1FFC, 0x1FFC, Delta (-9));
    (0x2126, 0x2126, Delta (-7517));
    (0x212A, 0x212A, Delta (-8383));
    (0x212B, 0x212B, Delta (-8262));
    (0x2132, 0x2132, Delta (28));
    (0x2160, 0x216F, Delta (16));
    (0x2183, 0x2183, Delta (1));
    (0x24B6, 0x24CF, Delta (26));
    (0x2C00, 0x2C2F, Delta (48));
    (0x2C60, 0x2C60, Delta (1));
    (0x2C62, 0x2C62, Delta (-10743));
    (0x2C63, 0x2C63, Delta (-3814));
    (0x2C64, 0x2C64, Delta (-10727));
    (0x2C67, 0x2C6C, UpperLower);
    (0x2C6D, 0x2C6D, Delta (-10780));
    (0x2C6E, 0x2C6E, Delta (-10749));
    (0x2C6F, 0x2C6F, Delta (-10783));
    (0x2C70, 0x2C70, Delta (-10782));
    (0x2C72, 0x2C72, Delta (1));
    (0x2C75, 0x2C75, Delta (1));
    (0x2C7E, 0x2C7F, Delta (-10815));
    (0x2C80, 0x2CE3, UpperLower);
    (0x2CEB, 0x2CEE, UpperLower);
    (0x2CF2, 0x2CF2, Delta (1));
    (0xA640, 0xA66D, UpperLower);
    (0xA680, 0xA69B, UpperLower);
    (0xA722, 0xA72F, UpperLower);
    (0xA732, 0xA76F, UpperLower);
    (0xA779, 0xA77C, UpperLower);
    (0xA77D, 0xA77D, Delta (-35332));
    (0xA77E, 0xA787, UpperLower);
    (0xA78B, 0xA78B, Delta (1));
    (0xA78D, 0xA78D, Delta (-42280));
    (0xA790, 0xA793, UpperLower);
    (0xA796, 0xA7A9, UpperLower);
    (0xA7AA, 0xA7AA, Delta (-42308));
    (0xA7AB, 0xA7AB, Delta (-42319));
    (0xA7AC, 0xA7AC, Delta (-42315));
    (0xA7AD, 0xA7AD, Delta (-42305));
    (0xA7AE, 0xA7AE, Delta (-42308));
    (0xA7B0, 0xA7B0, Delta (-42258));
    (0xA7B1, 0xA7B1, Delta (-42282));
    (0xA7B2, 0xA7B2, Delta (-42261));
    (0xA7B3, 0xA7B3, Delta (928));
    (0xA7B4, 0xA7C3, UpperLower);
    (0xA7C4, 0xA7C4, Delta (-48));
    (0xA7C5, 0xA7C5, Delta (-42307));
    (0xA7C6, 0xA7C6, Delta (-35384));
    (0xA7C7, 0xA7CA, UpperLower);
    (0xA7D0, 0xA7D0, Delta (1));
    (0xA7D6, 0xA7D9, UpperLower);
    (0xA7F5, 0xA7F5, Delta (1));
    (0xFF21, 0xFF3A, Delta (32));
    (0x10400, 0x10427, Delta (40));
    (0x104B0, 0x104D3, Delta (40));
    (0x10570, 0x1057A, Delta (39));
    (0x1057C, 0x1058A, Delta (39));
    (0x1058C, 0x10592, Delta (39));
    (0x10594, 0x10595, Delta (39));
    (0x10C80, 0x10CB2, Delta (64));
    (0x118A0, 0x118BF, Delta (32));
    (0x16E40, 0x16E5F, Delta (32));
    (0x1E900, 0x1E921, Delta (34)) ].

(** [unicode.to(LowerCase, r, CaseRanges)]: Go searches the sorted,
    disjoint ranges by bisection; a linear search finds the same range. *)
Fixpoint to_lower (ranges : list (Z * Z * CaseDelta)) (r : Z) : Z :=
  match ranges with
  | [] => r
  | (lo, hi, d) :: rest =>
      if (lo <=? r) && (r <=? hi) then
        match d with
        | Delta k => r + k
        | UpperLower => lo + Z.lor (Z.ldiff (r - lo) 1) 1
        end
      else to_lower rest r
  end.

(** [unicode.ToLower]. *)
Definition ToLower (r : Z) : Z :=
  if r <=? MaxASCII then
    (if (65 <=? r) && (r <=? 90) then r + (97 - 65) else r)
  else to_lower CaseRanges r.

(** [unicode.White_Space] above Latin-1. *)
Definition White_Space_ranges : list (Z * Z) :=
  [ (0x1680, 0x1680); (0x2000, 0x200A); (0x2028, 0x2029); (0x202F, 0x202F);
    (0x205F, 0x205F); (0x3000, 0x3000) ].

(** [unicode.IsSpace]: '\t', '\n', '\v', '\f', '\r', ' ', U+0085 and U+00A0
    in Latin-1, the White_Space property above. *)
Definition IsSpace (r : Z) : bool :=
  if (0 <=? r) && (r <=? MaxLatin1) then
    existsb (Z.eqb r) [9; 10; 11; 12; 13; 32; 0x85; 0xA0]
  else existsb (fun '(lo, hi) => (lo <=? r) && (r <=? hi)) White_Space_ranges.

End Unicode.

(** A finite check of the case table: on every rune of its ranges,
    [unicode.ToLower] gives a valid rune that it maps to itself. *)
Module CaseTableCheck.

Definition Z_range (lo hi : Z) : list Z :=
  map (fun n => lo + Z.of_nat n) (seq 0 (Z.to_nat (hi - lo + 1))).

Definition lower_ok (r : Z) : bool :=
  let l := Unicode.ToLower r in (Unicode.ToLower l =? l) && Utf8.ValidRune l.

Definition table_ok : bool :=
  forallb (fun '(lo, hi, _) => forallb lower_ok (Z_range lo hi)) Unicode.CaseRanges.

End CaseTableCheck.

(** ** Byte-string helpers of Go's [strings] package *)

Module GoStrings.

(** The ASCII path of [strings.ToLower]: 'A'..'Z' to 'a'..'z'. *)
Definition lower_byte (c : ascii) : ascii :=
  let n := nat_of_ascii c in
  if (65 <=? n)%nat && (n <=? 90)%nat then ascii_of_nat (n + 32) else c.

(** [s] has no byte [>= utf8.RuneSelf]. *)
Fixpoint is_ascii (s : string) : bool :=
  match s with
  | EmptyString => true
  | String c s' => (Utf8.byte c <? Utf8.RuneSelf) && is_ascii s'
  end.

Fixpoint ascii_lower (s : string) : string :=
  match s with
  | EmptyString => EmptyString
  | String c s' => String (lower_byte c) (ascii_lower s')
  end.

(** The bytes written to a [strings.Builder], in order. *)
Fixpoint concat_all (l : list string) : string :=
  match l with
  | [] => EmptyString
  | x :: l' => (x ++ concat_all l')%string
  end.

(** [strings.Map mapping s]: every rune of [s] (an invalid byte read as
    [RuneError]) is replaced by [mapping r], dropped when negative.  Go copies
    the bytes of a rune that [mapping] leaves unchanged, which are the
    [EncodeRune] of that rune, and writes [RuneError] for an invalid byte. *)
Definition Map (mapping : Z → Z) (s : string) : string :=
  concat_all
    (map (fun c => let r := mapping c in if 0 <=? r then Utf8.EncodeRune r else EmptyString)
       (Utf8.runes s)).

(** [strings.ToLower]: ASCII strings are lowered byte by byte, the others by
    [Map(unicode.ToLower, s)]. *)
Definition ToLower (s : string) : string :=
  if is_ascii s then ascii_lower s else Map Unicode.ToLower s.

(** The [asciiSpace] table of [strings]: '\t', '\n', '\v', '\f', '\r', ' '. *)
Definition is_space (c : ascii) : bool :=
  let n := nat_of_ascii c in
  ((9 <=? n)%nat && (n <=? 13)%nat) || (n =? 32)%nat.

(** [indexFunc(s, f, truth)]: the index of the first rune [r] of [s] with
    [f r = truth], [None] for -1. *)
Fixpoint indexFunc_loop (fuel : nat) (s : string) (f : Z → bool) (truth : bool) (i : nat)
    : option nat :=
  match fuel with
  | O => None
  | S fuel' =>
      match Utf8.skip i s with
      | EmptyString => None
      | rest =>
          let '(r, size) := Utf8.DecodeRuneInString rest in
          if Bool.eqb (f r) truth then Some i
          else indexFunc_loop fuel' s f truth (i + Z.to_nat size)
      end
  end.

Definition indexFunc (s : string) (f : Z → bool) (truth : bool) : option nat :=
  indexFunc_loop (String.length s) s f truth 0.

(** [lastIndexFunc(s, f, truth)]: runes are read backwards with
    [DecodeLastRuneInString]. *)
Fixpoint lastIndexFunc_loop (fuel : nat) (s : string) (f : Z → bool) (truth : bool) (i : nat)
    : option nat :=
  match fuel with
  | O => None
  | S fuel' =>
      if (0 <? i)%nat then
        let '(r, size) := Utf8.DecodeLastRuneInString (substring 0 i s) in
        let i' := (i - Z.to_nat size)%nat in
        if Bool.eqb (f r) truth then Some i' else lastIndexFunc_loop fuel' s f truth i'
      else None
  end.

Definition lastIndexFunc (s : string) (f : Z → bool) (truth : bool) : option nat :=
  lastIndexFunc_loop (String.length s) s f truth (String.length s).

(** [strings.TrimLeftFunc]. *)
Definition TrimLeftFunc (s : string) (f : Z → bool) : string :=
  match indexFunc s f false with
  | None => EmptyString
  | Some i => Utf8.skip i s
  end.

(** [strings.TrimRightFunc]. *)
Definition TrimRightFunc (s : string) (f : Z → bool) : string :=
  let i :=
    match lastIndexFunc s f false with
    | Some i =>
        if Utf8.RuneSelf <=? Utf8.byte_at s (Z.of_nat i)
        then (i + Z.to_nat (snd (Utf8.DecodeRuneInString (Utf8.skip i s))))%nat
        else (i + 1)%nat
    | None => O
    end in
  substring 0 i s.

(** [strings.TrimFunc]. *)
Definition TrimFunc (s : string) (f : Z → bool) : string :=
  TrimRightFunc (TrimLeftFunc s f) f.

(** The first loop of [strings.TrimSpace]: ASCII white space is skipped;
    [inr t] when a byte [>= RuneSelf] is met ([t = s[start:]], trimmed by
    [TrimFunc]), [inl t] otherwise. *)
Fixpoint trim_space_start (s : string) : string + string :=
  match s with
  | EmptyString => inl EmptyString
  | String c s' =>
      if Utf8.RuneSelf <=? Utf8.byte c then inr s
      else if is_space c then trim_space_start s' else inl s
  end.

(** The second loop of [strings.TrimSpace], from the end of [t = s[start:]]. *)
Fixpoint trim_space_stop (t : string) (stop : nat) : string :=
  match stop with
  | O => EmptyString
  | S k =>
      match String.get k t with
      | Some c =>
          if Utf8.RuneSelf <=? Utf8.byte c then TrimRightFunc (substring 0 stop t) Unicode.IsSpace
          else if is_space c then trim_space_stop t k else substring 0 stop t
      | None => EmptyString
      end
  end.

(** [strings.TrimSpace]. *)
Definition TrimSpace (s : string) : string :=
  match trim_space_start s with
  | inr t => TrimFunc t Unicode.IsSpace
  | inl t => trim_space_stop t (String.length t)
  end.

Fixpoint has_prefix (s pre : string) : bool :=
  match pre, s with
  | EmptyString, _ => true
  | String c pre', String d s' => Ascii.eqb c d && has_prefix s' pre'
  | String _ _, EmptyString => false
  end.

(** [strings.Contains s sub]. *)
Fixpoint Contains (s sub : string) : bool :=
  has_prefix s sub ||
  match s with
  | EmptyString => false
  | String _ s' => Contains s' sub
  end.

(** [strings.ReplaceAll s old ""]: every non-overlapping occurrence of [old],
    scanned left to right, is removed ([old] non-empty). *)
Fixpoint remove_all_fuel (fuel : nat) (s old : string) : string :=
  match fuel with
  | O => s
  | S fuel' =>
      match s with
      | EmptyString => EmptyString
      | String c s' =>
          if has_prefix s old
          then remove_all_fuel fuel' (substring (String.length old) (String.length s) s) old
          else String c (remove_all_fuel fuel' s' old)
      end
  end.

Definition ReplaceAll_empty (s old : string) : string :=
  remove_all_fuel (String.length s) s old.

(** [strings.Join elems sep]. *)
Fixpoint Join (elems : list string) (sep : string) : string :=
  match elems with
  | [] => EmptyString
  | [x] => x
  | x :: rest => (x ++ sep ++ Join rest sep)%string
  end.

End GoStrings.
Import GoStrings.

(** ** The scored record: [domain.Stock] *)

Record Stock := mkStock {
  Ticker : string;
  Company : string;
  Action : string;
  Brokerage : string;
  RatingFrom : string;
  RatingTo : string;
  TargetFrom : string;
  TargetTo : string;
  Time : Z  (** [time.Time], as nanoseconds since the Unix epoch *)
}.

Local Open Scope string_scope.

(** [getActionScore] *)
Definition getActionScore (action0 : string) : float :=
  let action := ToLower action0 in
  if Contains action "upgrade" then 10.0
  else if Contains action "initiated" || Contains action "initiate" then 8.0
  else if Contains action "target" && Contains action "raised" then 7.0
  else if Contains action "reiterate" || Contains action "maintain" then 6.0
  else if Contains action "target" && Contains action "lowered" then 3.0
  else if Contains action "downgrade" then 2.0
  else 5.0.

(** The map literal [ratingValues] of [getRatingImprovementScore]. *)
Definition ratingValues : list (string * float) :=
  [ ("strong-buy", 5.0); ("strong buy", 5.0); ("buy", 4.0);
    ("speculative buy", 4.0); ("overweight", 4.0); ("outperform", 4.0);
    ("market outperform", 4.0); ("sector outperform", 4.0); ("positive", 4.0);
    ("hold", 3.0); ("neutral", 3.0); ("in-line", 3.0); ("market perform", 3.0);
    ("sector perform", 3.0); ("equal weight", 3.0); ("equal-weight", 3.0);
    ("underweight", 2.0); ("underperform", 2.0); ("reduce", 2.0); ("sell", 1.0) ]%float.

(** Go map lookup [m[k]] with its [ok] flag. *)
Fixpoint map_lookup (m : list (string * float)) (k : string) : option float :=
  match m with
  | [] => None
  | (k', v) :: m' => if String.eqb k k' then Some v else map_lookup m' k
  end.

(** [getRatingValue] *)
Definition getRatingValue (rating0 : string) (values : list (string * float)) : float :=
  let rating := ToLower (TrimSpace rating0) in
  if String.eqb rating "" then 3.0%float
  else match map_lookup values rating with
       | Some val => val
       | None => 3.0%float
       end.

(** [getRatingImprovementScore] *)
Definition getRatingImprovementScore (ratingFrom ratingTo : string) : float :=
  let fromValue := getRatingValue ratingFrom ratingValues in
  let toValue := getRatingValue ratingTo ratingValues in
  let improvementBonus :=
    if (fromValue <? toValue)%float then ((toValue - fromValue) * 2.0)%float
    else if (toValue <? fromValue)%float then ((toValue - fromValue) * 2.0)%float
    else 0.0%float in
  ((toValue * 2.0) + improvementBonus)%float.

(** ** [strconv.ParseFloat(s, 64)] *)

Module GoParseFloat.
Local Open Scope Z_scope.

(** [commonPrefixLenIgnoreCase s prefix], [prefix] in lower case. *)
Fixpoint commonPrefixLenIgnoreCase (s prefix : string) : nat :=
  match s, prefix with
  | String c s', String p prefix' =>
      if Ascii.eqb (lower_byte c) p then S (commonPrefixLenIgnoreCase s' prefix') else O
  | _, _ => O
  end.

(** [special s]: the value, the number of bytes consumed, and [ok]. *)
Definition special (s : string) : option (float * nat) :=
  let inf (sign : bool) (nsign : nat) (s' : string) :=
    let n := commonPrefixLenIgnoreCase s' "infinity" in
    let n := if (3 <? n)%nat && (n <? 8)%nat then 3%nat else n in
    if (n =? 3)%nat || (n =? 8)%nat
    then Some ((if sign then neg_infinity else infinity), (nsign + n)%nat)
    else None in
  match s with
  | EmptyString => None
  | String c s' =>
      if Ascii.eqb c "+" then inf false 1%nat s'
      else if Ascii.eqb c "-" then inf true 1%nat s'
      else if Ascii.eqb c "i" || Ascii.eqb c "I" then inf false 0%nat s
      else if Ascii.eqb c "n" || Ascii.eqb c "N" then
        if (commonPrefixLenIgnoreCase s "nan" =? 3)%nat then Some (nan, 3%nat) else None
      else None
  end.

Definition is_digit (c : ascii) : bool :=
  let n := nat_of_ascii c in (48 <=? n)%nat && (n <=? 57)%nat.

Definition is_hex_letter (c : ascii) : bool :=
  let n := nat_of_ascii (lower_byte c) in (97 <=? n)%nat && (n <=? 102)%nat.

Definition digit_value (c : ascii) : Z :=
  if is_digit c then Z.of_nat (nat_of_ascii c) - 48
  else Z.of_nat (nat_of_ascii (lower_byte c)) - 87.

(** [underscoreOK s] of strconv/atoi.go; [saw] is one of "^", "0", "_", "!". *)
Fixpoint underscore_loop (hex : bool) (s : string) (saw : ascii) : bool :=
  match s with
  | EmptyString => negb (Ascii.eqb saw "_")
  | String c s' =>
      if is_digit c || (hex && is_hex_letter c) then underscore_loop hex s' "0"
      else if Ascii.eqb c "_" then
        if negb (Ascii.eqb saw "0") then false else underscore_loop hex s' "_"
      else if Ascii.eqb saw "_" then false
      else underscore_loop hex s' "!"
  end.

Definition underscoreOK (s0 : string) : bool :=
  let s := match s0 with
           | String c s' => if Ascii.eqb c "-" || Ascii.eqb c "+" then s' else s0
           | EmptyString => s0
           end in
  match s with
  | String z (String b s') =>
      let lb := lower_byte b in
      if Ascii.eqb z "0" && (Ascii.eqb lb "b" || Ascii.eqb lb "o" || Ascii.eqb lb "x")
      then underscore_loop (Ascii.eqb lb "x") s' "0"
      else underscore_loop false s "^"
  | _ => underscore_loop false s "^"
  end.

(** State of the mantissa loop of [readFloat]: the exact value of all digits
    read, the number of digits after the dot, [sawdot], [sawdigits] and
    [underscores]. *)
Record mant := mkMant {
  m_value : Z; m_frac : Z; m_sawdot : bool; m_sawdigits : bool; m_underscores : bool }.

Fixpoint read_mantissa (hex : bool) (s : string) (st : mant) : mant * string :=
  match s with
  | EmptyString => (st, s)
  | String c s' =>
      if Ascii.eqb c "_" then
        read_mantissa hex s' (mkMant (m_value st) (m_frac st) (m_sawdot st) (m_sawdigits st) true)
      else if Ascii.eqb c "." then
        if m_sawdot st then (st, s)
        else read_mantissa hex s' (mkMant (m_value st) (m_frac st) true (m_sawdigits st) (m_underscores st))
      else if is_digit c || (hex && is_hex_letter c) then
        read_mantissa hex s'
          (mkMant (m_value st * (if hex then 16 else 10) + digit_value c)
                  (if m_sawdot st then m_frac st + 1 else m_frac st)
                  (m_sawdot st) true (m_underscores st))
      else (st, s)
  end.

(** The exponent digits: [if e < 10000 { e = e*10 + d }], underscores noted. *)
Fixpoint read_exp_digits (s : string) (e : Z) (us : bool) : Z * bool * string :=
  match s with
  | String c s' =>
      if is_digit c then read_exp_digits s' (if (e <? 10000)%Z then (e * 10 + digit_value c)%Z else e) us
      else if Ascii.eqb c "_" then read_exp_digits s' e true
      else (e, us, s)
  | EmptyString => (e, us, s)
  end.

(** [readFloat s], followed by ParseFloat's check that all of [s] was read:
    the sign, [hex], the exact digit value [D] and the exponent [E] such that
    the number is [D * base^E] (base 10, or 2 for hexadecimal). *)
Definition readFloat (s0 : string) : option (bool * bool * Z * Z) :=
  let '(neg, s1) := match s0 with
                    | String c s' =>
                        if Ascii.eqb c "+" then (false, s')
                        else if Ascii.eqb c "-" then (true, s') else (false, s0)
                    | EmptyString => (false, s0)
                    end in
  let '(hex, s2) := match s1 with
                    | String z (String x (String _ _ as rest)) =>
                        if Ascii.eqb z "0" && Ascii.eqb (lower_byte x) "x" then (true, rest)
                        else (false, s1)
                    | _ => (false, s1)
                    end in
  let '(st, s3) := read_mantissa hex s2 (mkMant 0 0 false false false) in
  if negb (m_sawdigits st) then None else
  let expChar := if hex then "p"%char else "e"%char in
  let exp_part :=
    match s3 with
    | String c s4 =>
        if Ascii.eqb (lower_byte c) expChar then
          let '(esign, s5) := match s4 with
                              | String d s' =>
                                  if Ascii.eqb d "+" then (1, s')
                                  else if Ascii.eqb d "-" then (-1, s') else (1, s4)
                              | EmptyString => (1, s4)
                              end in
          match s5 with
          | String d _ =>
              if is_digit d then
                let '(e, us, s6) := read_exp_digits s5 0 false in Some (esign * e, us, s6)
              else None
          | EmptyString => None
          end
        else if hex then None else Some (0, false, s3)
    | EmptyString => if hex then None else Some (0, false, s3)
    end in
  match exp_part with
  | None => None
  | Some (e, us, rest) =>
      match rest with
      | EmptyString =>
          if (m_underscores st || us) && negb (underscoreOK s0) then None
          else Some (neg, hex, m_value st,
                     (if hex then e - 4 * m_frac st else e - m_frac st))
      | String _ _ => None
      end
  end.

(** Rounding the exact value [D * base^E] to the nearest binary64 (ties to
    even), as ParseFloat does; an infinite result is ParseFloat's range error. *)
Definition round_exact (neg hex : bool) (D E : Z) : spec_float :=
  if D =? 0 then S754_zero neg
  else if hex then
    binary_normalize FloatOps.prec FloatOps.emax (if neg then - D else D) E false
  else if 0 <=? E then
    binary_normalize FloatOps.prec FloatOps.emax (if neg then - (D * 10 ^ E) else D * 10 ^ E) 0 false
  else
    let '(q, e', l) := SFdiv_core_binary FloatOps.prec FloatOps.emax D 0 (10 ^ (- E)) 0 in
    binary_round_aux FloatOps.prec FloatOps.emax neg q e' l.

(** [strconv.ParseFloat(s, 64)]: [None] when it returns a non-nil error. *)
Definition ParseFloat (s : string) : option float :=
  match special s with
  | Some (f, n) => if (n =? String.length s)%nat then Some f else None
  | None =>
      match readFloat s with
      | None => None
      | Some (neg, hex, D, E) =>
          match round_exact neg hex D E with
          | S754_infinity _ => None
          | r => Some (SF2Prim r)
          end
      end
  end.

End GoParseFloat.
Import GoParseFloat.

(** ** Go conversions and formatting used by the scorer *)

Module GoFmt.
Local Open Scope Z_scope.

(** [float64(z)] for an integer [z]: the nearest binary64. *)
Definition float_of_Z (z : Z) : float :=
  SF2Prim (binary_normalize FloatOps.prec FloatOps.emax z 0 false).

Definition digit_char (d : Z) : ascii := ascii_of_nat (Z.to_nat (48 + d)).

Fixpoint string_of_Z_fuel (fuel : nat) (n : Z) (acc : string) : string :=
  match fuel with
  | O => acc
  | S fuel' =>
      let acc' := String (digit_char (n mod 10)) acc in
      if n <? 10 then acc' else string_of_Z_fuel fuel' (n / 10) acc'
  end.

(** Decimal digits of a non-negative integer. *)
Definition string_of_Z (n : Z) : string :=
  string_of_Z_fuel (S (Z.to_nat (Z.log2 (Z.max 1 n)))) n EmptyString.

(** [m / 2^k] rounded to the nearest integer, ties to even. *)
Definition div_pow2_half_even (m : Z) (k : Z) : Z :=
  let q := Z.shiftr m k in
  let r := m - Z.shiftl q k in
  let half := Z.shiftl 1 (k - 1) in
  if r <? half then q
  else if half <? r then q + 1
  else if Z.even q then q else q + 1.

(** [fmt.Sprintf("%.1f", x)]: the exact binary value rounded to one decimal
    (ties to even), [NaN], [+Inf] and [-Inf] for the special values. *)
Definition sprintf_1f (x : float) : string :=
  let body (neg : bool) (n : Z) :=
    ((if neg then "-" else "") ++ string_of_Z (n / 10) ++ "." ++
     String (digit_char (n mod 10)) EmptyString)%string in
  match Prim2SF x with
  | S754_nan => "NaN"%string
  | S754_infinity true => "-Inf"%string
  | S754_infinity false => "+Inf"%string
  | S754_zero s => body s 0
  | S754_finite s m e =>
      body s (if 0 <=? e then Z.pos m * 10 * 2 ^ e
              else div_pow2_half_even (Z.pos m * 10) (- e))
  end.

End GoFmt.
Import GoFmt.

(** [parsePrice].  The fourth string removed is the byte sequence written in
    the source file between the quotes (C3 A2 E2 80 9A C2 AC). *)
Definition euro_literal : string :=
  String (ascii_of_nat 195) (String (ascii_of_nat 162) (String (ascii_of_nat 226)
  (String (ascii_of_nat 128) (String (ascii_of_nat 154) (String (ascii_of_nat 194)
  (String (ascii_of_nat 172) EmptyString)))))).

Definition parsePrice (priceStr0 : string) : float :=
  let priceStr := TrimSpace priceStr0 in
  let priceStr := ReplaceAll_empty priceStr "$" in
  let priceStr := ReplaceAll_empty priceStr euro_literal in
  let priceStr := ReplaceAll_empty priceStr "," in
  let priceStr := ReplaceAll_empty priceStr " " in
  match ParseFloat priceStr with
  | None => 0.0%float
  | Some price => price
  end.

(** [calculateTargetPriceIncrease] *)
Definition calculateTargetPriceIncrease (targetFrom targetTo : string) : float :=
  let from := parsePrice targetFrom in
  let to := parsePrice targetTo in
  if (from <=? 0)%float || (to <=? 0)%float then 0.0%float
  else (((to - from) / from) * 100)%float.

(** [time.Since(t)] with the clock reading [now] (nanoseconds): [now.Sub(t)],
    which saturates to the range of [time.Duration] (int64). *)
Definition Since (now t : Z) : Z :=
  Z.max (- 2 ^ 63) (Z.min (2 ^ 63 - 1) (now - t))%Z.

(** [Duration.Hours] *)
Definition Hours (d : Z) : float :=
  let hour := Z.quot d 3600000000000 in
  let nsec := Z.rem d 3600000000000 in
  (float_of_Z hour + float_of_Z nsec / (60 * 60 * 1e9))%float.

(** [getRecencyScore] *)
Definition getRecencyScore (now t : Z) : float :=
  let daysSince := (Hours (Since now t) / 24)%float in
  if (daysSince <=? 1)%float then 10.0%float
  else if (daysSince <=? 7)%float then 8.0%float
  else if (daysSince <=? 30)%float then 6.0%float
  else if (daysSince <=? 90)%float then 4.0%float
  else 2.0%float.

Definition topTier : list string :=
  ["goldman sachs"; "morgan stanley"; "jp morgan"; "jpmorgan"; "barclays"].
Definition midTier : list string :=
  ["citigroup"; "credit suisse"; "deutsche bank"; "ubs"; "wells fargo"].

(** [getBrokerageScore] *)
Definition getBrokerageScore (brokerage0 : string) : float :=
  let brokerage := ToLower (TrimSpace brokerage0) in
  if String.eqb brokerage "" then 5.0%float
  else if existsb (fun top => Contains brokerage top) topTier then 10.0%float
  else if existsb (fun mid => Contains brokerage mid) midTier then 8.0%float
  else 6.0%float.

(** [calculateStockScore], with the clock reading [now] taken by its
    [time.Since] call: the score, the reason and the target increase. *)
Definition calculateStockScore (now : Z) (stock : Stock) : float * string * float :=
  let score := 0.0%float in
  let reasons : list string := [] in
  (* 1. Action Score *)
  let actionScore := getActionScore (Action stock) in
  let score := (score + actionScore * 0.30)%float in
  let reasons := if (3 <? actionScore)%float
                 then app reasons ["Recent " ++ Action stock] else reasons in
  (* 2. Rating Improvement Score *)
  let ratingScore := getRatingImprovementScore (RatingFrom stock) (RatingTo stock) in
  let score := (score + ratingScore * 0.25)%float in
  let reasons := if (3 <? ratingScore)%float
                 then app reasons ["Rating improved to " ++ RatingTo stock] else reasons in
  (* 3. Target Price Increase *)
  let targetIncrease := calculateTargetPriceIncrease (TargetFrom stock) (TargetTo stock) in
  let '(score, reasons) :=
    if negb (targetIncrease =? 0)%float then
      let targetScore := (targetIncrease / 2.0)%float in
      let targetScore := if (10 <? targetScore)%float then 10%float else targetScore in
      let targetScore := if (targetScore <? -10)%float then (-10)%float else targetScore in
      let score := (score + targetScore * 0.20)%float in
      let reasons :=
        if (5 <? targetIncrease)%float
        then app reasons [sprintf_1f targetIncrease ++ "% price target increase"]
        else if (targetIncrease <? -5)%float
        then app reasons [sprintf_1f targetIncrease ++ "% price target decrease"]
        else reasons in
      (score, reasons)
    else (score, reasons) in
  (* 4. Recency Score *)
  let recencyScore := getRecencyScore now (Time stock) in
  let score := (score + recencyScore * 0.15)%float in
  (* 5. Brokerage Reputation *)
  let brokerageScore := getBrokerageScore (Brokerage stock) in
  let score := (score + brokerageScore * 0.10)%float in
  let reasons := if (8 <=? brokerageScore)%float && negb (String.eqb (Brokerage stock) "")
                 then app reasons ["Rated by " ++ Brokerage stock] else reasons in
  let reason := Join reasons "; " in
  let reason := if String.eqb reason "" then "Positive outlook" else reason in
  (score, reason, targetIncrease).

(** ** Ranking: the exchange sort of [GetRecommendations] *)

Module ExchangeSort.
Section Sort.
Context {A : Type} (gt : A → A → bool).

(** One step of the inner loop:
    [if recommendations[j].Score > recommendations[i].Score { swap i, j }],
    where [gt a b] is [a.Score > b.Score]. *)
Definition cmp_swap (i j : nat) (l : list A) : list A :=
  match l !! i, l !! j with
  | Some x, Some y => if gt y x then <[j:=x]> (<[i:=y]> l) else l
  | _, _ => l
  end.

(** [for j := i + 1; j < len; j++], as [k] steps starting at [j]. *)
Fixpoint inner_loop (i j k : nat) (l : list A) : list A :=
  match k with
  | O => l
  | S k' => inner_loop i (S j) k' (cmp_swap i j l)
  end.

(** [for i := 0; i < len - 1; i++], as [k] steps starting at [i]. *)
Fixpoint outer_loop (i k : nat) (l : list A) : list A :=
  match k with
  | O => l
  | S k' => outer_loop (S i) k' (inner_loop i (S i) (length l - S i) l)
  end.

Definition exchange_sort (l : list A) : list A :=
  outer_loop 0 (length l - 1) l.

(** No later element is [gt] an element at a position below [n]. *)
Definition sorted_upto (n : nat) (l : list A) : Prop :=
  ∀ a b x y, (a < n)%nat → (a < b)%nat → l !! a = Some x → l !! b = Some y → gt y x = false.

End Sort.
End ExchangeSort.

(** [domain.StockRecommendation] *)
Record StockRecommendation := mkRecommendation {
  RStock : Stock;
  Score : float;
  Reason : string;
  TargetIncrease : float
}.

(** [rec_a.Score > rec_b.Score] *)
Definition score_gt (a b : StockRecommendation) : bool := (Score b <? Score a)%float.

Definition recommend (now : Z) (stock : Stock) : StockRecommendation :=
  let '(score, reason, targetIncrease) := calculateStockScore now stock in
  mkRecommendation stock score reason targetIncrease.

(** The scored list before ranking. *)
Definition scored (clock : nat → Z) (stocks : list Stock) : list StockRecommendation :=
  imap (fun k stock => recommend (clock k) stock) stocks.

(** [GetRecommendations], from the point where [repo.FindAll] has returned
    [stocks] without error.  [clock k] is the reading of the wall clock taken
    by [time.Since] while the [k]-th stock is scored. *)
Definition GetRecommendations (clock : nat → Z) (stocks : list Stock) (limit : Z)
  : list StockRecommendation :=
  match stocks with
  | [] => []
  | _ =>
      let recommendations := scored clock stocks in
      let recommendations := ExchangeSort.exchange_sort score_gt recommendations in
      if (0 <? limit)%Z && (limit <? Z.of_nat (length recommendations))%Z
      then take (Z.to_nat limit) recommendations
      else recommendations
  end.

(** No entry of [l] has a score greater ([>]) than an entry before it. *)
Definition score_sorted (l : list StockRecommendation) : Prop :=
  ∀ a b ra rb, (a < b)%nat → l !! a = Some ra → l !! b = Some rb →
    (Score ra <? Score rb)%float = false.

(** ** The HTTP handler's [limit] *)

(** [c.Query(key)]: the first value of [key] in the query string, or [""]. *)
Fixpoint Query (params : list (string * string)) (key : string) : string :=
  match params with
  | [] => ""
  | (k, v) :: rest => if String.eqb k key then v else Query rest key
  end.

Fixpoint digits_value (s : string) (acc : Z) : option Z :=
  match s with
  | EmptyString => Some acc
  | String c s' =>
      if GoParseFloat.is_digit c
      then digits_value s' (acc * 10 + GoParseFloat.digit_value c)%Z
      else None
  end.

(** [strconv.Atoi] on a 64-bit platform: an optional sign and at least one
    decimal digit, in the range of int64; [None] for an error. *)
Definition Atoi (s0 : string) : option Z :=
  let '(neg, s) := match s0 with
                   | String c s' =>
                       if Ascii.eqb c "-" then (true, s')
                       else if Ascii.eqb c "+" then (false, s') else (false, s0)
                   | EmptyString => (false, s0)
                   end in
  match s with
  | EmptyString => None
  | String _ _ =>
      match digits_value s 0 with
      | None => None
      | Some n =>
          let v := if neg then (- n)%Z else n in
          if (- 2 ^ 63 <=? v)%Z && (v <? 2 ^ 63)%Z then Some v else None
      end
  end.

(** [parseIntQuery] *)
Definition parseIntQuery (params : list (string * string)) (key : string) (defaultValue : Z) : Z :=
  let value := Query params key in
  if String.eqb value "" then defaultValue
  else match Atoi value with
       | None => defaultValue
       | Some intValue => intValue
       end.

(** The [limit] that [StockHandler.GetRecommendations] passes to the use case. *)
Definition handler_limit (params : list (string * string)) : Z :=
  let limit := parseIntQuery params "limit" 10 in
  let limit := if (50 <? limit)%Z then 50%Z else limit in
  let limit := if (limit <? 1)%Z then 10%Z else limit in
  limit.

(** [strconv.Itoa]: the decimal rendering of an integer, with a leading '-'
    for a negative one. *)
Definition Itoa (n : Z) : string :=
  if (n <? 0)%Z then ("-" ++ string_of_Z (- n))%string else string_of_Z n.

(** [c.GetQuery(key)]: the first value of [key], if the key is present. *)
Fixpoint GetQuery (params : list (string * string)) (key : string) : option string :=
  match params with
  | [] => None
  | (k, v) :: rest => if String.eqb k key then Some v else GetQuery rest key
  end.

(** [c.DefaultQuery(key, defaultValue)]: the value of a present key (even an
    empty one), [defaultValue] for an absent key. *)
Definition DefaultQuery (params : list (string * string)) (key defaultValue : string) : string :=
  match GetQuery params key with
  | Some v => v
  | None => defaultValue
  end.

(** ** The SQL of [StockRepository.FindAll] and [StockRepository.Count]

    Both methods build a statement text and its argument list, then run it.
    The model gives the pair that is sent to [db.Query] / [db.QueryRow]. *)

Module Repo.

(** [domain.StockFilter] *)
Record StockFilter := mkStockFilter {
  Ticker : string;
  Company : string;
  Brokerage : string;
  Action : string;
  RatingFrom : string;
  RatingTo : string;
  SortBy : string;
  SortOrder : string;
  Limit : Z;
  Offset : Z
}.

(** [filter.Limit = n] on a copy of [filter]. *)
Definition set_Limit (filter : StockFilter) (n : Z) : StockFilter :=
  mkStockFilter (Ticker filter) (Company filter) (Brokerage filter) (Action filter)
    (RatingFrom filter) (RatingTo filter) (SortBy filter) (SortOrder filter) n (Offset filter).

(** The values appended to [args []interface{}]. *)
Inductive Arg := ArgString (s : string) | ArgInt (n : Z).

(** The local variables [query], [args] and [argPos]. *)
Definition state : Type := (string * list Arg * Z)%type.

(** [query += fmt.Sprintf(cond + "%d", argPos); args = append(args, v); argPos++],
    for [cond] one of " AND ticker = $", " AND action_name = $", ... *)
Definition add_eq (cond v : string) (st : state) : state :=
  let '(query, args, argPos) := st in
  ((query ++ cond ++ string_of_Z argPos)%string, app args [ArgString v], (argPos + 1)%Z).

(** [query += fmt.Sprintf(" AND (col ILIKE $%d OR col %% $%d)", argPos, argPos+1)];
    [args = append(args, "%"+v+"%")]; [args = append(args, v)]; [argPos += 2]. *)
Definition add_fuzzy (col v : string) (st : state) : state :=
  let '(query, args, argPos) := st in
  ((query ++ " AND (" ++ col ++ " ILIKE $" ++ string_of_Z argPos ++
      " OR " ++ col ++ " % $" ++ string_of_Z (argPos + 1) ++ ")")%string,
   app (app args [ArgString ("%" ++ v ++ "%")]) [ArgString v], (argPos + 2)%Z).

(** The filters on ticker, company, brokerage, action and rating_from, which
    [FindAll] and [Count] write identically. *)
Definition common_conditions (filter : StockFilter) (st : state) : state :=
  let st := if negb (String.eqb (Ticker filter) "") then add_eq " AND ticker = $" (Ticker filter) st else st in
  let st := if negb (String.eqb (Company filter) "") then add_fuzzy "company" (Company filter) st else st in
  let st := if negb (String.eqb (Brokerage filter) "") then add_fuzzy "brokerage_name" (Brokerage filter) st else st in
  let st := if negb (String.eqb (Action filter) "") then add_eq " AND action_name = $" (Action filter) st else st in
  let st := if negb (String.eqb (RatingFrom filter) "") then add_eq " AND rating_from_term = $" (RatingFrom filter) st else st in
  st.

(** The filters of [FindAll]; the rating_to filter ends with [argPos++]. *)
Definition FindAll_conditions (filter : StockFilter) (st : state) : state :=
  let st := common_conditions filter st in
  if negb (String.eqb (RatingTo filter) "") then add_eq " AND rating_to_term = $" (RatingTo filter) st else st.

(** The filters of [Count]; its rating_to filter does not increment [argPos]. *)
Definition Count_conditions (filter : StockFilter) (st : state) : state :=
  let st := common_conditions filter st in
  if negb (String.eqb (RatingTo filter) "") then
    let '(query, args, argPos) := st in
    ((query ++ " AND rating_to_term = $" ++ string_of_Z argPos)%string,
     app args [ArgString (RatingTo filter)], argPos)
  else st.

(** The keys of [validSortFields], all mapped to [true]. *)
Definition validSortFields : list string :=
  ["ticker"; "company"; "time"; "rating_to_term"; "action_name"; "brokerage_name"; "target_to"].

(** [sortBy]: "time", or [filter.SortBy] when [validSortFields[filter.SortBy]]
    (a missing key reads as [false]). *)
Definition order_column (filter : StockFilter) : string :=
  let sortBy := "time" in
  if negb (String.eqb (SortBy filter) "") then
    if existsb (String.eqb (SortBy filter)) validSortFields then SortBy filter else sortBy
  else sortBy.

(** [sortOrder] *)
Definition order_direction (filter : StockFilter) : string :=
  if String.eqb (SortOrder filter) "asc" || String.eqb (SortOrder filter) "ASC" then "ASC" else "DESC".

(** The raw string that [FindAll] starts from. *)
Definition findAll_base : string := "
		WITH latest_stocks AS (
			SELECT DISTINCT ON (s.ticker) 
				s.id, s.ticker, s.target_from, s.target_to, s.company,
				s.action_id, a.name as action_name,
				s.brokerage_id, b.name as brokerage_name,
				s.rating_from_id, rf.term as rating_from_term,
				s.rating_to_id, rt.term as rating_to_term,
				s.time, s.created_at, s.updated_at
			FROM stocks s
			LEFT JOIN actions a ON s.action_id = a.id
			LEFT JOIN brokerages b ON s.brokerage_id = b.id
			LEFT JOIN ratings rf ON s.rating_from_id = rf.id
			LEFT JOIN ratings rt ON s.rating_to_id = rt.id
			ORDER BY s.ticker, s.time DESC
		)
		SELECT id, ticker, target_from, target_to, company,
		       action_id, action_name, brokerage_id, brokerage_name,
		       rating_from_id, rating_from_term, rating_to_id, rating_to_term,
		       time, created_at, updated_at
		FROM latest_stocks
		WHERE 1=1
	".

(** The raw string that [Count] starts from. *)
Definition count_base : string := "
		WITH latest_stocks AS (
			SELECT DISTINCT ON (s.ticker) 
				s.id, s.ticker, s.target_from, s.target_to, s.company,
				s.action_id, a.name as action_name,
				s.brokerage_id, b.name as brokerage_name,
				s.rating_from_id, rf.term as rating_from_term,
				s.rating_to_id, rt.term as rating_to_term,
				s.time, s.created_at, s.updated_at
			FROM stocks s
			LEFT JOIN actions a ON s.action_id = a.id
			LEFT JOIN brokerages b ON s.brokerage_id = b.id
			LEFT JOIN ratings rf ON s.rating_from_id = rf.id
			LEFT JOIN ratings rt ON s.rating_to_id = rt.id
			ORDER BY s.ticker, s.time DESC
		)
		SELECT COUNT(*) FROM latest_stocks WHERE 1=1
	".

(** The statement and the arguments that [FindAll] passes to [db.Query]. *)
Definition FindAll_query (filter : StockFilter) : string * list Arg :=
  let '(query, args, argPos) := FindAll_conditions filter (findAll_base, [], 1%Z) in
  let query := (query ++ " ORDER BY " ++ order_column filter ++ " " ++ order_direction filter)%string in
  let '(query, args, argPos) :=
    if (0 <? Limit filter)%Z
    then ((query ++ " LIMIT $" ++ string_of_Z argPos)%string, app args [ArgInt (Limit filter)], (argPos + 1)%Z)
    else (query, args, argPos) in
  if (0 <? Offset filter)%Z
  then ((query ++ " OFFSET $" ++ string_of_Z argPos)%string, app args [ArgInt (Offset filter)])
  else (query, args).

(** The statement and the arguments that [Count] passes to [db.QueryRow]. *)
Definition Count_query (filter : StockFilter) : string * list Arg :=
  let '(query, args, _) := Count_conditions filter (count_base, [], 1%Z) in
  (query, args).

(** The numbers [n] of the placeholders [$n] of an SQL text, in order of
    appearance; [cur] is the number being read after a '$'. *)
Fixpoint scan (s : string) (cur : option Z) : list Z :=
  match s with
  | EmptyString => match cur with Some n => [n] | None => [] end
  | String c s' =>
      match cur with
      | Some n =>
          if GoParseFloat.is_digit c then scan s' (Some (n * 10 + GoParseFloat.digit_value c)%Z)
          else n :: (if Ascii.eqb c "$" then scan s' (Some 0%Z) else scan s' None)
      | None => if Ascii.eqb c "$" then scan s' (Some 0%Z) else scan s' None
      end
  end.

Definition placeholders (sql : string) : list Z := scan sql None.

End Repo.

(** ** [StockRepository.CreateBatch] *)

Module Batch.
Section CreateBatch.
Context {Row : Type}.

(** [r.insertChunk(chunk)]: [Some msg] when it returns an error. *)
Variable insertChunk : list Row → option string.

Definition chunkSize : nat := 100.

(** [for i := 0; i < len(stocks); i += chunkSize { ... }], at most [fuel]
    iterations: the chunks passed to [insertChunk], in order, and the error
    returned ([None] for [nil]). *)
Fixpoint batch_loop (fuel i : nat) (stocks : list Row) : list (list Row) * option string :=
  match fuel with
  | O => ([], None)
  | S fuel' =>
      if (i <? length stocks)%nat then
        let end_ := (i + chunkSize)%nat in
        let end_ := if (length stocks <? end_)%nat then length stocks else end_ in
        let chunk := take (end_ - i) (drop i stocks) in
        match insertChunk chunk with
        | Some err => ([chunk], Some ("failed to insert batch chunk: " ++ err)%string)
        | None =>
            let '(calls, res) := batch_loop fuel' (i + chunkSize) stocks in
            (chunk :: calls, res)
        end
      else ([], None)
  end.

(** [CreateBatch]; the loop runs at most [len(stocks)] times. *)
Definition CreateBatch (stocks : list Row) : list (list Row) * option string :=
  if (length stocks =? 0)%nat then ([], None)
  else batch_loop (length stocks) 0 stocks.

End CreateBatch.
End Batch.

(** ** [StockUseCase.GetStocks], [GetStockCount] and [StockHandler.GetStocks] *)

Module ListStocks.
Section Layers.
Context {Row : Type}.

(** [repo.FindAll] and [repo.Count]: a result or an error message. *)
Variable FindAll : Repo.StockFilter → list Row + string.
Variable Count : Repo.StockFilter → Z + string.

(** The defaults of [StockUseCase.GetStocks], applied to its copy of the filter. *)
Definition GetStocks_filter (filter : Repo.StockFilter) : Repo.StockFilter :=
  let filter := if (Repo.Limit filter =? 0)%Z then Repo.set_Limit filter 50 else filter in
  let filter := if (1000 <? Repo.Limit filter)%Z then Repo.set_Limit filter 1000 else filter in
  filter.

(** [StockUseCase.GetStocks] *)
Definition GetStocks (filter : Repo.StockFilter) : list Row + string :=
  match FindAll (GetStocks_filter filter) with
  | inl stocks => inl stocks
  | inr err => inr ("failed to retrieve stocks: " ++ err)%string
  end.

(** [StockUseCase.GetStockCount]: the count and the error. *)
Definition GetStockCount (filter : Repo.StockFilter) : Z * option string :=
  match Count filter with
  | inl count => (count, None)
  | inr err => (0%Z, Some ("failed to count stocks: " ++ err)%string)
  end.

(** [MetaData] *)
Record MetaData := mkMetaData { Total : Z; MetaLimit : Z; MetaOffset : Z }.

(** The JSON answers of [StockHandler.GetStocks]. *)
Inductive Response :=
  | ErrorResponse (status : Z) (err : string)
  | PaginatedResponse (data : list Row) (meta : MetaData).

(** The filter that [StockHandler.GetStocks] reads from the query string. *)
Definition handler_filter (params : list (string * string)) : Repo.StockFilter :=
  Repo.mkStockFilter (Query params "ticker") (Query params "company") (Query params "brokerage")
    (Query params "action") (Query params "rating_from") (Query params "rating_to")
    (DefaultQuery params "sortBy" "time") (DefaultQuery params "sortOrder" "desc")
    (parseIntQuery params "limit" 50) (parseIntQuery params "offset" 0).

(** [StockHandler.GetStocks]: the filter is passed by value, so the handler's
    [filter.Limit] is the parsed one. *)
Definition handler_GetStocks (params : list (string * string)) : Response :=
  let filter := handler_filter params in
  match GetStocks filter with
  | inr err => ErrorResponse 500 err
  | inl stocks =>
      let '(total, _) := GetStockCount filter in
      PaginatedResponse stocks (mkMetaData total (Repo.Limit filter) (Repo.Offset filter))
  end.

End Layers.
End ListStocks.

(** ** Predicates and views used in the statements below *)

Module Text.
(** [s] consists of decimal digits only. *)
Fixpoint all_digits (s : string) : bool :=
  match s with
  | EmptyString => true
  | String c s' => GoParseFloat.is_digit c && all_digits s'
  end.
End Text.

(** The placeholders of the text written so far are [$1 .. $k], one per
    argument, and [argPos] is [k + 1]. *)
Definition numbered (st : Repo.state) : Prop :=
  let '(q, a, p) := st in
  Repo.placeholders q = map Z.of_nat (seq 1 (length a)) ∧ p = (Z.of_nat (length a) + 1)%Z.

(** The UTF-8 bytes of the euro sign U+20AC (E2 82 AC). *)
Definition euro_sign : string :=
  String (ascii_of_nat 226) (String (ascii_of_nat 130) (String (ascii_of_nat 172) EmptyString)).

(** The builder state [s] written after a text [q] and arguments [a]. *)
Definition frame (q : string) (a : list Repo.Arg) (s : Repo.state) : Repo.state :=
  ((q ++ fst (fst s))%string, (a ++ snd (fst s))%list, snd s).

(** Everything of a filter that the SQL texts of [FindAll] and [Count] read:
    which string filters are set, the ORDER BY column and direction, and
    whether LIMIT and OFFSET are written. *)
Definition shape (f : Repo.StockFilter) :=
  (String.eqb (Repo.Ticker f) "", String.eqb (Repo.Company f) "", String.eqb (Repo.Brokerage f) "",
   String.eqb (Repo.Action f) "", String.eqb (Repo.RatingFrom f) "", String.eqb (Repo.RatingTo f) "",
   Repo.order_column f, Repo.order_direction f, (0 <? Repo.Limit f)%Z, (0 <? Repo.Offset f)%Z).
Import Text.

(** ** [StockUseCase.SyncStocksFromAPI] *)

Module Sync.
Section SyncStocks.
Context {Row : Type}.

(** [uc.apiClient.FetchAllStocks(ctx)]: the stocks or an error message. *)
Variable fetched : list Row + string.
Variable insertChunk : list Row → option string.

(** [SyncStocksFromAPI]: the count and the error it returns, with the chunks
    that [CreateBatch] passed to [insertChunk]. *)
Definition SyncStocksFromAPI : Z * option string * list (list Row) :=
  match fetched with
  | inr err => (0%Z, Some ("failed to fetch stocks: " ++ err)%string, [])
  | inl stocks =>
      let '(calls, res) := Batch.CreateBatch insertChunk stocks in
      match res with
      | Some err => (0%Z, Some ("failed to store stocks: " ++ err)%string, calls)
      | None => (Z.of_nat (length stocks), None, calls)
      end
  end.

End SyncStocks.
End Sync.

(** ** Reading one stock, or the stocks of one ticker *)

Module Lookup.
Section Lookups.
Context {Row : Type}.

(** The errors these paths return: [domain.ErrNotFound], or an error built
    by [fmt.Errorf] from a database error. *)
Inductive Err := ErrNotFound | Wrapped (msg : string).

(** [errors.Is(err, domain.ErrNotFound)] *)
Definition is_not_found (e : Err) : bool :=
  match e with ErrNotFound => true | Wrapped _ => false end.

(** [err.Error()] *)
Definition Error (e : Err) : string :=
  match e with ErrNotFound => "resource not found" | Wrapped msg => msg end.

(** What the database gives [FindByTicker]: a failed [db.Query], a failed
    [rows.Scan], a failed iteration ([rows.Err]), or the scanned rows. *)
Inductive TickerRows :=
  | QueryFailed (e : string)
  | ScanFailed (e : string)
  | IterFailed (e : string)
  | Scanned (rows : list Row).

(** What [db.QueryRow(...).Scan(...)] gives [FindByID]. *)
Inductive IdRow := NoRows | RowFailed (e : string) | Found (row : Row).

Variable db_ticker : string → TickerRows.
Variable db_id : Z → IdRow.

(** [StockRepository.FindByTicker] *)
Definition FindByTicker (ticker : string) : list Row + Err :=
  match db_ticker ticker with
  | QueryFailed e => inr (Wrapped ("failed to query stocks by ticker: " ++ e)%string)
  | ScanFailed e => inr (Wrapped ("failed to scan stock: " ++ e)%string)
  | IterFailed e => inr (Wrapped ("error iterating stocks: " ++ e)%string)
  | Scanned stocks => if (length stocks =? 0)%nat then inr ErrNotFound else inl stocks
  end.

(** [StockRepository.FindByID] *)
Definition FindByID (id : Z) : Row + Err :=
  match db_id id with
  | NoRows => inr ErrNotFound
  | RowFailed e => inr (Wrapped ("failed to find stock: " ++ e)%string)
  | Found row => inl row
  end.

(** The JSON answers of these handlers: [respondWithError], or a
    [Response] with [Data]. *)
Inductive Reply (A : Type) := ErrorReply (status : Z) (err : string) | DataReply (data : A).
Arguments ErrorReply {A}.
Arguments DataReply {A}.

(** [StockHandler.GetStocksByTicker]; [StockUseCase.GetStocksByTicker]
    returns the repository's error unchanged. *)
Definition handler_GetStocksByTicker (ticker : string) : Reply (list Row) :=
  if String.eqb ticker "" then ErrorReply 400 "invalid input"
  else match FindByTicker ticker with
       | inr err => if is_not_found err then ErrorReply 404 (Error err) else ErrorReply 500 (Error err)
       | inl stocks => DataReply stocks
       end.

(** [StockHandler.GetStockByID]: [strconv.ParseInt(id, 10, 64)] accepts the
    strings [Atoi] accepts on a 64-bit platform; [StockUseCase.GetStockByID]
    returns the repository's error unchanged. *)
Definition handler_GetStockByID (param : string) : Reply Row :=
  match Atoi param with
  | None => ErrorReply 400 "invalid input"
  | Some id =>
      match FindByID id with
      | inr err => if is_not_found err then ErrorReply 404 (Error err) else ErrorReply 500 (Error err)
      | inl stock => DataReply stock
      end
  end.

End Lookups.
Arguments ErrorReply {A}.
Arguments DataReply {A}.
End Lookup.

(** ** Readings of the specification, compared with the code below *)

Module SpecSide.

(** Substring matching as the specification reads it: [p] occurs in [a]
    at some position [i], [0 <= i <= len(a)]. *)
Definition contains_spec (a p : string) : bool :=
  existsb (fun i => String.eqb (substring i (String.length p) a) p) (seq 0 (S (String.length a))).

(** The action classification as the specification lists it: an ordered
    list of (test on the lower-cased action, score), first match wins,
    [5] when nothing matches. *)
Definition action_rules : list ((string → bool) * float) :=
  [ (fun a => contains_spec a "upgrade", 10%float);
    (fun a => contains_spec a "initiated" || contains_spec a "initiate", 8%float);
    (fun a => contains_spec a "target" && contains_spec a "raised", 7%float);
    (fun a => contains_spec a "reiterate" || contains_spec a "maintain", 6%float);
    (fun a => contains_spec a "target" && contains_spec a "lowered", 3%float);
    (fun a => contains_spec a "downgrade", 2%float) ].

Fixpoint first_match (rules : list ((string → bool) * float)) (a : string) (default : float) : float :=
  match rules with
  | [] => default
  | (test, score) :: rest => if test a then score else first_match rest a default
  end.

Definition action_score_spec (action : string) : float :=
  first_match action_rules (ToLower action) 5%float.

(** The highlights of the reason string as the specification lists them:
    action, rating, price, brokerage, in this order. *)
Definition highlights (now : Z) (stock : Stock) : list string :=
  let actionScore := getActionScore (Action stock) in
  let ratingScore := getRatingImprovementScore (RatingFrom stock) (RatingTo stock) in
  let pct := calculateTargetPriceIncrease (TargetFrom stock) (TargetTo stock) in
  let tier := getBrokerageScore (Brokerage stock) in
  (if (3 <? actionScore)%float then ["Recent " ++ Action stock] else []) ++
  (if (3 <? ratingScore)%float then ["Rating improved to " ++ RatingTo stock] else []) ++
  (if (5 <? pct)%float then [GoFmt.sprintf_1f pct ++ "% price target increase"]
   else if (pct <? -5)%float then [GoFmt.sprintf_1f pct ++ "% price target decrease"]
   else []) ++
  (if (8 <=? tier)%float && negb (String.eqb (Brokerage stock) "")
   then ["Rated by " ++ Brokerage stock] else []).

Definition reason_spec (now : Z) (stock : Stock) : string :=
  match highlights now stock with
  | [] => "Positive outlook"
  | hs => Join hs "; "
  end.

End SpecSide.
Import SpecSide.

(** ** Concrete inputs *)

Module Samples.

(** A stock with the given ticker and action, every other text field empty. *)
Definition plain_stock (ticker action : string) : Stock :=
  mkStock ticker "" action "" "" "" "" "" 0.

(** The no-break space U+00A0 (bytes C2 A0), white space for [unicode.IsSpace]. *)
Definition nbsp : string := String (ascii_of_nat 194) (String (ascii_of_nat 160) EmptyString).

(** A clock reading the Unix epoch. *)
Definition clock0 : nat → Z := fun _ => 0%Z.

(** A clock reading: 2025-10-15T00:00:00Z in nanoseconds. *)
Definition now_ns : Z := 1760486400000000000.

(** The end-to-end scenario of the specification, two hours before [now_ns]. *)
Definition goldman_upgrade : Stock :=
  mkStock "GS" "" "upgrade" "Goldman Sachs" "Neutral" "Buy" "$200.00" "$244.00"
    (now_ns - 2 * 3600000000000).

(** A stock whose [target_from] is the string "NaN". *)
Definition nan_target : Stock := mkStock "NAN" "" "" "" "" "" "NaN" "$10.00" 0.

(** The events with the highest and the lowest sub-scores, at [now_ns]. *)
Definition best_event : Stock :=
  mkStock "HI" "" "upgrade" "Goldman Sachs" "Sell" "Strong Buy" "$100" "$1,000" now_ns.
Definition worst_event : Stock :=
  mkStock "LO" "" "downgrade" "" "Strong Buy" "Sell" "$100" "$1" (now_ns - 100 * 24 * 3600000000000).

End Samples.
Import Samples.

(** * Properties *)

(** ** UTF-8 decoding and encoding *)

Module Utf8Facts.
Local Open Scope Z_scope.
Import Utf8.

Ltac zlia := Z.div_mod_to_equations; lia.

Ltac zcmp :=
  repeat (match goal with
    | |- context [(?a <? ?b)%Z] => destruct (Z.ltb_spec a b)
    | |- context [(?a <=? ?b)%Z] => destruct (Z.leb_spec a b)
    | |- context [(?a =? ?b)%Z] => destruct (Z.eqb_spec a b)
    end; lazy beta iota delta [andb orb negb]; try zlia).

Lemma byte_char b : 0 <= b < 256 → byte (char b) = b.
Proof.
  intros H. unfold byte, char.
  rewrite (Z.land_ones b 8 ltac:(lia) : Z.land b 255 = b mod 2 ^ 8). change (2 ^ 8) with 256. rewrite Z.mod_small by lia.
  rewrite N_ascii_embedding by lia. lia.
Qed.

Lemma byte_range c : 0 <= byte c < 256.
Proof. unfold byte. pose proof (N_ascii_bounded c). lia. Qed.

Lemma lor_gen k x y : 0 <= k → x mod 2 ^ k = 0 → 0 <= y < 2 ^ k → Z.lor x y = x + y.
Proof.
  intros Hk Hx Hy.
  assert (Hl : Z.land x y = 0).
  { apply Z.bits_inj'. intros i Hi. rewrite Z.land_spec, Z.bits_0.
    assert (Ex : x = x / 2 ^ k * 2 ^ k).
    { rewrite (Z.div_mod x (2 ^ k)) at 1 by (apply Z.pow_nonzero; lia). rewrite Hx. ring. }
    destruct (Z.lt_ge_cases i k).
    - rewrite Ex, Z.mul_pow2_bits_low by lia. reflexivity.
    - rewrite <- (Z.mod_small y (2 ^ k)) by lia.
      rewrite (Z.mod_pow2_bits_high y k i) by lia. apply andb_false_r. }
  rewrite <- Z.lxor_lor, <- Z.add_nocarry_lxor; [reflexivity|exact Hl|exact Hl].
Qed.

Lemma lor3 x y : x mod 8 = 0 → 0 <= y < 8 → Z.lor x y = x + y.
Proof. apply (lor_gen 3); lia. Qed.
Lemma lor4 x y : x mod 16 = 0 → 0 <= y < 16 → Z.lor x y = x + y.
Proof. apply (lor_gen 4); lia. Qed.
Lemma lor5 x y : x mod 32 = 0 → 0 <= y < 32 → Z.lor x y = x + y.
Proof. apply (lor_gen 5); lia. Qed.
Lemma lor6 x y : x mod 64 = 0 → 0 <= y < 64 → Z.lor x y = x + y.
Proof. apply (lor_gen 6); lia. Qed.
Lemma lor12 x y : x mod 4096 = 0 → 0 <= y < 4096 → Z.lor x y = x + y.
Proof. apply (lor_gen 12); lia. Qed.
Lemma lor18 x y : x mod 262144 = 0 → 0 <= y < 262144 → Z.lor x y = x + y.
Proof. apply (lor_gen 18); lia. Qed.

Lemma land7 x : Z.land x 7 = x mod 8.
Proof. apply (Z.land_ones x 3); lia. Qed.
Lemma land15 x : Z.land x 15 = x mod 16.
Proof. apply (Z.land_ones x 4); lia. Qed.
Lemma land31 x : Z.land x 31 = x mod 32.
Proof. apply (Z.land_ones x 5); lia. Qed.
Lemma land63 x : Z.land x 63 = x mod 64.
Proof. apply (Z.land_ones x 6); lia. Qed.
Lemma land255 x : Z.land x 255 = x mod 256.
Proof. apply (Z.land_ones x 8); lia. Qed.
Lemma shl6 x : Z.shiftl x 6 = x * 64.
Proof. apply (Z.shiftl_mul_pow2 x 6); lia. Qed.
Lemma shl12 x : Z.shiftl x 12 = x * 4096.
Proof. apply (Z.shiftl_mul_pow2 x 12); lia. Qed.
Lemma shl18 x : Z.shiftl x 18 = x * 262144.
Proof. apply (Z.shiftl_mul_pow2 x 18); lia. Qed.
Lemma shr6 x : Z.shiftr x 6 = x / 64.
Proof. apply (Z.shiftr_div_pow2 x 6); lia. Qed.
Lemma shr12 x : Z.shiftr x 12 = x / 4096.
Proof. apply (Z.shiftr_div_pow2 x 12); lia. Qed.
Lemma shr18 x : Z.shiftr x 18 = x / 262144.
Proof. apply (Z.shiftr_div_pow2 x 18); lia. Qed.

Lemma mm64 x : x mod 256 mod 64 = x mod 64.
Proof. apply Z.mod_mod_divide. exists 4. reflexivity. Qed.

Ltac bits := rewrite ?land7, ?land15, ?land31, ?land63, ?land255, ?shl6, ?shl12, ?shl18,
  ?shr6, ?shr12, ?shr18.

Ltac consts := unfold RuneError, RuneSelf, MaxRune, UTFMax, t2, t3, t4, tx, maskx, mask2,
  mask3, mask4, rune1Max, rune2Max, rune3Max, surrogateMin, surrogateMax, locb, hicb in *.

Lemma enc1 r : 0 <= r <= 0x7F → EncodeRune r = String (char r) EmptyString.
Proof.
  intros H. unfold EncodeRune. consts. change (2 ^ 32) with 4294967296.
  rewrite (Z.mod_small r 4294967296) by zlia. zcmp. reflexivity.
Qed.

Lemma enc2 r : 0x80 <= r <= 0x7FF →
  EncodeRune r = String (char (192 + r / 64)) (String (char (128 + r mod 64)) EmptyString).
Proof.
  intros H. unfold EncodeRune. consts. change (2 ^ 32) with 4294967296.
  rewrite (Z.mod_small r 4294967296) by zlia. zcmp. bits.
  rewrite (Z.mod_small (r / 64) 256) by zlia.
  rewrite ?mm64. rewrite (lor5 192), (lor6 128) by zlia. reflexivity.
Qed.

Lemma enc3 r : 0x800 <= r <= 0xFFFF → ¬ (0xD800 <= r <= 0xDFFF) →
  EncodeRune r = String (char (224 + r / 4096))
    (String (char (128 + r / 64 mod 64)) (String (char (128 + r mod 64)) EmptyString)).
Proof.
  intros H H'. unfold EncodeRune. consts. change (2 ^ 32) with 4294967296.
  rewrite (Z.mod_small r 4294967296) by zlia. zcmp; bits;
  (rewrite (Z.mod_small (r / 4096) 256) by zlia;
   rewrite ?mm64; rewrite (lor4 224), !(lor6 128) by zlia; reflexivity).
Qed.

Lemma enc4 r : 0x10000 <= r <= 0x10FFFF →
  EncodeRune r = String (char (240 + r / 262144))
    (String (char (128 + r / 4096 mod 64))
      (String (char (128 + r / 64 mod 64)) (String (char (128 + r mod 64)) EmptyString))).
Proof.
  intros H. unfold EncodeRune. consts. change (2 ^ 32) with 4294967296.
  rewrite (Z.mod_small r 4294967296) by zlia. zcmp. bits.
  rewrite (Z.mod_small (r / 262144) 256) by zlia.
  rewrite ?mm64. rewrite (lor3 240), !(lor6 128) by zlia. reflexivity.
Qed.

Lemma dec_enc r t : ValidRune r = true →
  DecodeRuneInString (EncodeRune r ++ t) = (r, Z.of_nat (String.length (EncodeRune r))).
Proof.
  unfold ValidRune. consts. intros Hv.
  assert (H : (0 <= r < 55296) ∨ (57343 < r <= 1114111)).
  { destruct (Z.leb_spec 0 r), (Z.ltb_spec r 55296), (Z.ltb_spec 57343 r), (Z.leb_spec r 1114111);
      cbn in Hv; try discriminate; lia. }
  clear Hv.
  destruct (Z.le_gt_cases r 0x7F) as [H1|H1].
  { rewrite enc1 by lia. cbn [append]. unfold DecodeRuneInString; lazy beta iota zeta.
    rewrite byte_char by lia. unfold first. consts. zcmp. reflexivity. }
  destruct (Z.le_gt_cases r 0x7FF) as [H2|H2].
  { rewrite enc2 by lia. cbn [append]. unfold DecodeRuneInString; lazy beta iota zeta.
    rewrite !byte_char by zlia. unfold first. consts. bits.
    replace ((192 + r / 64) mod 32) with (r / 64) by zlia.
    replace ((128 + r mod 64) mod 64) with (r mod 64) by zlia.
    rewrite (lor6 (r / 64 * 64)) by zlia. cbn [String.length].
    zcmp. f_equal; zlia. }
  destruct (Z.le_gt_cases r 0xFFFF) as [H3|H3].
  { rewrite enc3 by lia. cbn [append]. unfold DecodeRuneInString; lazy beta iota zeta.
    rewrite !byte_char by zlia. unfold first. consts. bits.
    replace ((224 + r / 4096) mod 16) with (r / 4096) by zlia.
    replace ((128 + r / 64 mod 64) mod 64) with (r / 64 mod 64) by zlia.
    replace ((128 + r mod 64) mod 64) with (r mod 64) by zlia.
    rewrite (lor12 (r / 4096 * 4096) (r / 64 mod 64 * 64)) by zlia.
    rewrite (lor6 (r / 4096 * 4096 + r / 64 mod 64 * 64)) by zlia. cbn [String.length].
    zcmp; f_equal; zlia. }
  { rewrite enc4 by lia. cbn [append]. unfold DecodeRuneInString; lazy beta iota zeta.
    rewrite !byte_char by zlia. unfold first. consts. bits.
    replace ((240 + r / 262144) mod 8) with (r / 262144) by zlia.
    replace ((128 + r / 4096 mod 64) mod 64) with (r / 4096 mod 64) by zlia.
    replace ((128 + r / 64 mod 64) mod 64) with (r / 64 mod 64) by zlia.
    replace ((128 + r mod 64) mod 64) with (r mod 64) by zlia.
    rewrite (lor18 (r / 262144 * 262144) (r / 4096 mod 64 * 4096)) by zlia.
    rewrite (lor12 (r / 262144 * 262144 + r / 4096 mod 64 * 4096) (r / 64 mod 64 * 64)) by zlia.
    rewrite (lor6 (r / 262144 * 262144 + r / 4096 mod 64 * 4096 + r / 64 mod 64 * 64)) by zlia.
    cbn [String.length].
    zcmp; f_equal; zlia. }
Qed.

Lemma dec_valid c s : let '(r, w) := DecodeRuneInString (String c s) in
  ValidRune r = true ∧ 1 <= w ∧ w <= Z.of_nat (String.length (String c s)).
Proof.
  pose proof (byte_range c) as R0.
  destruct s as [|c1 [|c2 [|c3 s4]]];
    unfold DecodeRuneInString; lazy beta iota zeta; unfold first, ValidRune; consts; bits;
    cbn [String.length].
  - zcmp; repeat split; zlia.
  - pose proof (byte_range c1).
    rewrite (lor6 (byte c mod 32 * 64) (byte c1 mod 64)) by zlia.
    zcmp; repeat split; zlia.
  - pose proof (byte_range c1). pose proof (byte_range c2).
    rewrite (lor6 (byte c mod 32 * 64) (byte c1 mod 64)) by zlia.
    rewrite (lor12 (byte c mod 16 * 4096) (byte c1 mod 64 * 64)) by zlia.
    rewrite (lor6 (byte c mod 16 * 4096 + byte c1 mod 64 * 64) (byte c2 mod 64)) by zlia.
    zcmp; repeat split; zlia.
  - pose proof (byte_range c1). pose proof (byte_range c2). pose proof (byte_range c3).
    rewrite (lor6 (byte c mod 32 * 64) (byte c1 mod 64)) by zlia.
    rewrite (lor12 (byte c mod 16 * 4096) (byte c1 mod 64 * 64)) by zlia.
    rewrite (lor6 (byte c mod 16 * 4096 + byte c1 mod 64 * 64) (byte c2 mod 64)) by zlia.
    rewrite (lor18 (byte c mod 8 * 262144) (byte c1 mod 64 * 4096)) by zlia.
    rewrite (lor12 (byte c mod 8 * 262144 + byte c1 mod 64 * 4096) (byte c2 mod 64 * 64)) by zlia.
    rewrite (lor6 (byte c mod 8 * 262144 + byte c1 mod 64 * 4096 + byte c2 mod 64 * 64)
      (byte c3 mod 64)) by zlia.
    zcmp; repeat split; zlia.
Qed.

End Utf8Facts.

(** ** [strings.ToLower] and [strings.TrimSpace] *)

Module GoStringsFacts.
Import Utf8 Utf8Facts GoStrings.
Local Open Scope Z_scope.

Lemma valid_bounds r : ValidRune r = true ↔ (0 <= r < 0xD800 ∨ 0xDFFF < r <= 0x10FFFF).
Proof.
  unfold ValidRune; consts.
  destruct (Z.leb_spec 0 r), (Z.ltb_spec r 55296), (Z.ltb_spec 57343 r), (Z.leb_spec r 1114111);
    cbn; split; intros; try reflexivity; try discriminate; lia.
Qed.

Lemma length_skip n s : String.length (skip n s) = (String.length s - n)%nat.
Proof. revert s; induction n as [|n IH]; intros [|c s]; cbn; try lia; auto. Qed.

Lemma skip_app x t : skip (String.length x) (x ++ t) = t.
Proof. induction x; cbn; auto. Qed.

Lemma string_length_app x t : String.length (x ++ t) = (String.length x + String.length t)%nat.
Proof. induction x; cbn; auto. Qed.

Lemma runes_fuel_step f s : s ≠ EmptyString →
  runes_fuel (S f) s = let '(r, w) := DecodeRuneInString s in r :: runes_fuel f (skip (Z.to_nat w) s).
Proof. destruct s; [congruence|reflexivity]. Qed.

Lemma runes_fuel_enough f1 f2 s : (String.length s <= f1)%nat → (String.length s <= f2)%nat →
  runes_fuel f1 s = runes_fuel f2 s.
Proof.
  revert f2 s; induction f1 as [|f1 IH]; intros f2 [|c s] H1 H2; cbn [String.length] in *.
  - destruct f2; reflexivity.
  - lia.
  - destruct f2; reflexivity.
  - destruct f2 as [|f2]; [lia|].
    rewrite !runes_fuel_step by discriminate.
    generalize (dec_valid c s). destruct (DecodeRuneInString (String c s)) as [r w].
    intros [_ [W1 W2]]. f_equal. apply IH; rewrite length_skip; cbn [String.length]; lia.
Qed.

Lemma EncodeRune_nonempty r : EncodeRune r ≠ EmptyString.
Proof.
  unfold EncodeRune.
  repeat match goal with |- context [if ?b then _ else _] => destruct b end; discriminate.
Qed.

Lemma runes_enc_app r t : ValidRune r = true → runes (EncodeRune r ++ t) = r :: runes t.
Proof.
  intros V. unfold runes.
  assert (L : ∃ n, String.length (EncodeRune r ++ t) = S n ∧ (String.length t <= n)%nat).
  { rewrite string_length_app. pose proof (EncodeRune_nonempty r).
    destruct (EncodeRune r); [congruence|]. cbn. eexists; split; [reflexivity|lia]. }
  destruct L as [n [L1 L2]]. rewrite L1.
  rewrite runes_fuel_step.
  2: { intros E. apply (f_equal String.length) in E. rewrite L1 in E. discriminate. }
  rewrite dec_enc by exact V. f_equal.
  rewrite Nat2Z.id, skip_app. apply runes_fuel_enough; lia.
Qed.

Lemma runes_concat rs : Forall (fun r => ValidRune r = true) rs →
  runes (concat_all (map EncodeRune rs)) = rs.
Proof.
  induction 1 as [|r rs V _ IH]; [reflexivity|].
  cbn [map concat_all]. rewrite runes_enc_app by exact V. by rewrite IH.
Qed.

Lemma runes_fuel_valid f s : Forall (fun r => ValidRune r = true) (runes_fuel f s).
Proof.
  revert s; induction f as [|f IH]; intros [|c s]; try constructor.
  rewrite runes_fuel_step by discriminate.
  generalize (dec_valid c s). destruct (DecodeRuneInString (String c s)) as [r w].
  intros [V _]. constructor; [exact V|apply IH].
Qed.

Lemma runes_valid s : Forall (fun r => ValidRune r = true) (runes s).
Proof. apply runes_fuel_valid. Qed.

Lemma table_ok_true : CaseTableCheck.table_ok = true.
Proof. vm_compute. reflexivity. Qed.

Lemma to_lower_cases tbl r :
  Unicode.to_lower tbl r = r ∨ ∃ lo hi d, In (lo, hi, d) tbl ∧ lo <= r <= hi.
Proof.
  induction tbl as [|[[lo hi] d] tbl IH]; cbn; [left; reflexivity|].
  destruct (Z.leb_spec lo r), (Z.leb_spec r hi); cbn.
  1: { right. exists lo, hi, d. split; [left; reflexivity|lia]. }
  all: destruct IH as [IH|(lo' & hi' & d' & I & B)];
    [left; exact IH|right; exists lo', hi', d'; split; [right; exact I|exact B]].
Qed.

Lemma Z_range_in lo hi r : lo <= r <= hi → In r (CaseTableCheck.Z_range lo hi).
Proof.
  intros B. unfold CaseTableCheck.Z_range. apply in_map_iff.
  exists (Z.to_nat (r - lo)). split; [lia|]. apply in_seq. lia.
Qed.

Lemma lower_rune r : ValidRune r = true →
  ValidRune (Unicode.ToLower r) = true ∧ Unicode.ToLower (Unicode.ToLower r) = Unicode.ToLower r.
Proof.
  intros V. pose proof (proj1 (valid_bounds r) V) as B.
  destruct (Z.leb_spec r 127) as [A|A].
  - assert (E : (Unicode.ToLower r = r + 32 ∧ 65 <= r <= 90) ∨
                (Unicode.ToLower r = r ∧ ¬ (65 <= r <= 90))).
    { unfold Unicode.ToLower, Unicode.MaxASCII. zcmp. }
    destruct E as [[E R]|[E R]]; rewrite E; split;
      try (apply valid_bounds; lia);
      unfold Unicode.ToLower, Unicode.MaxASCII; zcmp.
  - destruct (to_lower_cases Unicode.CaseRanges r) as [E|(lo & hi & d & I & R)].
    + assert (E' : Unicode.ToLower r = r).
      { unfold Unicode.ToLower, Unicode.MaxASCII. zcmp. }
      rewrite E'. split; [exact V|exact E'].
    + pose proof table_ok_true as T. unfold CaseTableCheck.table_ok in T.
      rewrite forallb_forall in T. specialize (T _ I). lazy beta iota in T.
      rewrite forallb_forall in T. specialize (T r (Z_range_in _ _ _ R)).
      unfold CaseTableCheck.lower_ok in T. cbv zeta in T.
      apply andb_prop in T as [T1 T2]. apply Z.eqb_eq in T1. split; assumption.
Qed.

Lemma lower_nonneg r : ValidRune r = true → 0 <= Unicode.ToLower r.
Proof. intros V. pose proof (proj1 (valid_bounds _) (proj1 (lower_rune r V))). lia. Qed.

Lemma Map_eq f s : (∀ r, ValidRune r = true → 0 <= f r) →
  Map f s = concat_all (map (fun r => EncodeRune (f r)) (runes s)).
Proof.
  intros F. unfold Map. f_equal. apply map_ext_in. intros r I.
  pose proof (proj1 (List.Forall_forall _ _) (runes_valid s) r I) as V.
  cbv beta zeta. destruct (Z.leb_spec 0 (f r)); [reflexivity|].
  specialize (F r V). lia.
Qed.

Lemma enc_lower_ascii c : byte c < 128 →
  EncodeRune (Unicode.ToLower (byte c)) = String (lower_byte c) EmptyString.
Proof.
  intros H. destruct c as [[] [] [] [] [] [] [] []];
    first [vm_compute; reflexivity | vm_compute in H; discriminate].
Qed.

Lemma dec_ascii c s : byte c < 128 → DecodeRuneInString (String c s) = (byte c, 1).
Proof.
  intros H. unfold DecodeRuneInString; lazy beta iota zeta. unfold first.
  destruct (Z.ltb_spec (byte c) 128); [reflexivity|lia].
Qed.

Lemma runes_ascii_cons c s : byte c < 128 → runes (String c s) = byte c :: runes s.
Proof.
  intros H. unfold runes. cbn [String.length].
  rewrite runes_fuel_step by discriminate. rewrite dec_ascii by exact H. reflexivity.
Qed.

Lemma ascii_lower_Map s : is_ascii s = true →
  ascii_lower s = concat_all (map (fun r => EncodeRune (Unicode.ToLower r)) (runes s)).
Proof.
  induction s as [|c s IH]; [reflexivity|].
  cbn [is_ascii]. intros H. apply andb_prop in H as [H1 H2].
  apply Z.ltb_lt in H1. unfold RuneSelf in H1.
  rewrite runes_ascii_cons by exact H1. cbn [map concat_all ascii_lower].
  rewrite enc_lower_ascii by exact H1. cbn [append]. by rewrite IH.
Qed.

Lemma ToLower_Map s :
  ToLower s = concat_all (map (fun r => EncodeRune (Unicode.ToLower r)) (runes s)).
Proof.
  unfold ToLower. destruct (is_ascii s) eqn:A.
  - by apply ascii_lower_Map.
  - apply Map_eq, lower_nonneg.
Qed.

Lemma runes_ToLower s : runes (ToLower s) = map Unicode.ToLower (runes s).
Proof.
  rewrite ToLower_Map, <- (map_map Unicode.ToLower EncodeRune).
  apply runes_concat. rewrite List.Forall_map.
  eapply List.Forall_impl; [|apply runes_valid]. intros r V. apply (proj1 (lower_rune r V)).
Qed.

Lemma ToLower_idem s : ToLower (ToLower s) = ToLower s.
Proof.
  rewrite (ToLower_Map (ToLower s)), runes_ToLower, map_map, (ToLower_Map s).
  f_equal. apply map_ext_in. intros r I.
  pose proof (proj1 (List.Forall_forall _ _) (runes_valid s) r I) as V.
  by rewrite (proj2 (lower_rune r V)).
Qed.

Lemma ToLower_empty s : ToLower s = EmptyString ↔ s = EmptyString.
Proof.
  split; [|intros ->; reflexivity].
  rewrite ToLower_Map. destruct s as [|c s]; [done|].
  unfold runes; cbn [String.length]. rewrite runes_fuel_step by discriminate.
  destruct (DecodeRuneInString (String c s)) as [r w]. cbn [map concat_all].
  intros E. apply (f_equal String.length) in E. rewrite string_length_app in E.
  pose proof (EncodeRune_nonempty (Unicode.ToLower r)).
  destruct (EncodeRune (Unicode.ToLower r)); [congruence|discriminate].
Qed.

Lemma TrimSpace_nonascii_head c s : RuneSelf <= byte c →
  Unicode.IsSpace (fst (DecodeRuneInString (String c s))) = false →
  TrimSpace (String c s) = EmptyString ∨ ∃ r, TrimSpace (String c s) = String c r.
Proof.
  intros H1 H2. unfold TrimSpace. cbn [trim_space_start].
  rewrite (proj2 (Z.leb_le _ _) H1).
  unfold TrimFunc, TrimLeftFunc, indexFunc. cbn [String.length indexFunc_loop skip].
  revert H2. destruct (DecodeRuneInString (String c s)) as [r w]. cbn [fst]. intros ->.
  cbn [Bool.eqb skip]. unfold TrimRightFunc. cbv zeta.
  match goal with |- context [substring 0 ?i _] => destruct i as [|k] end.
  - left. reflexivity.
  - right. eexists. reflexivity.
Qed.

End GoStringsFacts.

(** ** Go's [<] on float64 is a strict order (NaN compares false) *)

Module FloatOrder.

Lemma SFltb_irrefl (a : spec_float) : SFltb a a = false.
Proof.
  unfold SFltb, SFcompare.
  destruct a as [s|s| |s m e]; try destruct s; try reflexivity;
    rewrite Z.compare_refl; rewrite Pos.compare_cont_refl; reflexivity.
Qed.

Ltac cmp_cases :=
  repeat match goal with
  | |- context [Z.compare ?a ?b] => destruct (Z.compare_spec a b)
  | H : context [Z.compare ?a ?b] |- _ => destruct (Z.compare_spec a b)
  | |- context [Pos.compare_cont Eq ?a ?b] =>
      change (Pos.compare_cont Eq a b) with (Pos.compare a b); destruct (Pos.compare_spec a b)
  | H : context [Pos.compare_cont Eq ?a ?b] |- _ =>
      change (Pos.compare_cont Eq a b) with (Pos.compare a b) in H; destruct (Pos.compare_spec a b)
  end.

Lemma SFltb_trans (a b c : spec_float) :
  SFltb a b = true → SFltb b c = true → SFltb a c = true.
Proof.
  unfold SFltb, SFcompare.
  destruct a as [sa|sa| |sa ma ea], b as [sb|sb| |sb mb eb], c as [sc|sc| |sc mc ec];
    try destruct sa; try destruct sb; try destruct sc; simpl; try discriminate; auto;
    cmp_cases; simpl; subst; try discriminate; auto; try lia.
Qed.

Lemma ltb_irrefl (x : float) : (x <? x)%float = false.
Proof. rewrite ltb_spec. apply SFltb_irrefl. Qed.

Lemma ltb_trans (x y z : float) :
  (x <? y)%float = true → (y <? z)%float = true → (x <? z)%float = true.
Proof. rewrite !ltb_spec. apply SFltb_trans. Qed.

End FloatOrder.

(** ** The exchange sort *)

Module ExchangeSortFacts.
Import ExchangeSort.
Local Open Scope nat_scope.

Section Facts.
Context {A : Type} (gt : A → A → bool).
Hypothesis gt_irrefl : ∀ x, gt x x = false.
Hypothesis gt_trans : ∀ x y z, gt x y = true → gt y z = true → gt x z = true.

Lemma cmp_swap_length i j l : length (cmp_swap gt i j l) = length l.
Proof.
  unfold cmp_swap. destruct (l !! i), (l !! j); try reflexivity.
  destruct (gt _ _); [by rewrite !length_insert | reflexivity].
Qed.

Lemma cmp_swap_perm i j l : cmp_swap gt i j l ≡ₚ l.
Proof.
  unfold cmp_swap. destruct (l !! i) eqn:Hi, (l !! j) eqn:Hj; try done.
  destruct (gt _ _); [by apply Permutation_insert_swap | done].
Qed.

Lemma cmp_swap_other i j l b : b ≠ i → b ≠ j → cmp_swap gt i j l !! b = l !! b.
Proof.
  intros. unfold cmp_swap. destruct (l !! i), (l !! j); try done.
  destruct (gt _ _); [|done].
  rewrite !list_lookup_insert_ne; done.
Qed.

(** Every element of [cmp_swap i j l] at a position [b] was at [b], [i] or [j]. *)
Lemma cmp_swap_from i j l b y :
  cmp_swap gt i j l !! b = Some y →
  ∃ b', (b' = b ∨ b' = i ∨ b' = j) ∧ l !! b' = Some y.
Proof.
  unfold cmp_swap. destruct (l !! i) as [x0|] eqn:Hi, (l !! j) as [y0|] eqn:Hj;
    try (intros; exists b; auto; fail).
  destruct (gt y0 x0); [|intros; exists b; auto].
  rewrite !list_lookup_insert. intros H.
  repeat case_decide; simplify_eq; eauto.
Qed.

Lemma cmp_swap_step i j l :
  i < j →
  (∀ m x y, i < m < j → l !! i = Some x → l !! m = Some y → gt y x = false) →
  ∀ m x y, i < m < S j → cmp_swap gt i j l !! i = Some x →
    cmp_swap gt i j l !! m = Some y → gt y x = false.
Proof.
  intros Hij IH m x y Hm. unfold cmp_swap.
  destruct (l !! i) as [x0|] eqn:Hi, (l !! j) as [y0|] eqn:Hj.
  - destruct (gt y0 x0) eqn:G.
    + assert (i < length l) by (apply lookup_lt_Some in Hi; done).
      assert (j < length l) by (apply lookup_lt_Some in Hj; done).
      rewrite list_lookup_insert_ne by lia.
      rewrite list_lookup_insert_eq by done. intros [= <-].
      destruct (decide (m = j)) as [->|Hmj].
      * rewrite list_lookup_insert_eq by (rewrite length_insert; done). intros [= <-].
        destruct (gt x0 y0) eqn:G'; [|done].
        rewrite <- (gt_irrefl y0). symmetry. apply (gt_trans _ x0); done.
      * rewrite list_lookup_insert_ne by lia. rewrite list_lookup_insert_ne by lia.
        intros Hm'.
        destruct (gt y y0) eqn:G'; [|done].
        assert (gt y x0 = true) by (apply (gt_trans _ y0); done).
        rewrite (IH m x0 y) in *; [done|lia|done|done].
    + cbn iota. intros Hx' Hm'. rewrite Hi in Hx'. injection Hx' as <-.
      destruct (decide (m = j)) as [->|]; [congruence|].
      apply (IH m); [lia|done|done].
  - cbn iota. intros Hx' Hm'. rewrite Hi in Hx'. injection Hx' as <-.
    destruct (decide (m = j)) as [->|]; [congruence|].
    apply (IH m); [lia|done|done].
  - cbn iota. intros Hx'. rewrite Hi in Hx'. congruence.
  - cbn iota. intros Hx'. rewrite Hi in Hx'. congruence.
Qed.

Lemma inner_loop_length i j k l : length (inner_loop gt i j k l) = length l.
Proof.
  revert j l. induction k as [|k IH]; intros j l; simpl; [done|].
  by rewrite IH, cmp_swap_length.
Qed.

Lemma inner_loop_perm i j k l : inner_loop gt i j k l ≡ₚ l.
Proof.
  revert j l. induction k as [|k IH]; intros j l; simpl; [done|].
  by rewrite IH, cmp_swap_perm.
Qed.

Lemma inner_loop_below i j k l b : b < i → i < j → inner_loop gt i j k l !! b = l !! b.
Proof.
  revert j l. induction k as [|k IH]; intros j l Hb Hj; simpl; [done|].
  rewrite IH by lia. apply cmp_swap_other; lia.
Qed.

Lemma inner_loop_from i j k l b y :
  i < j → i ≤ b → inner_loop gt i j k l !! b = Some y → ∃ b', i ≤ b' ∧ l !! b' = Some y.
Proof.
  revert j l b. induction k as [|k IH]; intros j l b Hj Hb H; simpl in H; [eauto|].
  destruct (IH (S j) (cmp_swap gt i j l) b ltac:(lia) Hb H) as (b' & Hb' & H').
  destruct (cmp_swap_from _ _ _ _ _ H') as (b'' & Hb'' & H'').
  exists b''. split; [lia|done].
Qed.

Lemma inner_loop_spec i j k l :
  i < j →
  (∀ m x y, i < m < j → l !! i = Some x → l !! m = Some y → gt y x = false) →
  ∀ m x y, i < m < j + k → inner_loop gt i j k l !! i = Some x →
    inner_loop gt i j k l !! m = Some y → gt y x = false.
Proof.
  revert j l. induction k as [|k IH]; intros j l Hj Hinv; simpl.
  - intros m x y Hm. apply Hinv. lia.
  - intros m x y Hm. apply (IH (S j)); [lia| |lia].
    apply cmp_swap_step; done.
Qed.

Lemma inner_pass_sorted i l :
  sorted_upto gt i l → sorted_upto gt (S i) (inner_loop gt i (S i) (length l - S i) l).
Proof.
  intros Hs a b x y Ha Hab Hx Hy.
  set (l' := inner_loop gt i (S i) (length l - S i) l) in *.
  assert (Hlen : length l' = length l) by apply inner_loop_length.
  destruct (decide (a = i)) as [->|Hai].
  - assert (b < length l) by (rewrite <- Hlen; eapply lookup_lt_Some; done).
    refine (inner_loop_spec i (S i) (length l - S i) l _ _ b x y _ Hx Hy);
      [lia | intros; lia | lia].
  - assert (a < i) by lia.
    unfold l' in Hx. rewrite inner_loop_below in Hx by lia.
    destruct (decide (b < i)).
    + unfold l' in Hy. rewrite inner_loop_below in Hy by lia.
      apply (Hs a b); done.
    + destruct (inner_loop_from i (S i) (length l - S i) l b y ltac:(lia) ltac:(lia) Hy)
        as (b' & Hb' & Hy').
      apply (Hs a b'); [lia|lia|done|done].
Qed.

Lemma outer_loop_sorted k i l : sorted_upto gt i l → sorted_upto gt (i + k) (outer_loop gt i k l).
Proof.
  revert i l. induction k as [|k IH]; intros i l Hs; simpl.
  - by rewrite Nat.add_0_r.
  - replace (i + S k) with (S i + k) by lia. apply IH, inner_pass_sorted, Hs.
Qed.

Lemma outer_loop_perm i k l : outer_loop gt i k l ≡ₚ l.
Proof.
  revert i l. induction k as [|k IH]; intros i l; simpl; [done|].
  by rewrite IH, inner_loop_perm.
Qed.

(** The exchange sort returns a permutation of its input in which no element
    is [gt] an element placed before it. *)
Lemma exchange_sort_sorted l :
  ∀ a b x y, a < b → exchange_sort gt l !! a = Some x → exchange_sort gt l !! b = Some y →
    gt y x = false.
Proof.
  intros a b x y Hab Hx Hy.
  assert (Hlen : length (exchange_sort gt l) = length l)
    by (apply Permutation_length, outer_loop_perm).
  assert (b < length l) by (rewrite <- Hlen; eapply lookup_lt_Some; done).
  apply (outer_loop_sorted (length l - 1) 0 l) with (a := a) (b := b); try done; [|lia].
  intros ? ? ? ? ?; lia.
Qed.

Lemma exchange_sort_perm l : exchange_sort gt l ≡ₚ l.
Proof. apply outer_loop_perm. Qed.

End Facts.
End ExchangeSortFacts.

(** ** Ranking and truncation of [GetRecommendations] *)

Module Ranking.
Local Open Scope nat_scope.

Lemma score_gt_irrefl r : score_gt r r = false.
Proof. apply FloatOrder.ltb_irrefl. Qed.

Lemma score_gt_trans r1 r2 r3 :
  score_gt r1 r2 = true → score_gt r2 r3 = true → score_gt r1 r3 = true.
Proof. unfold score_gt. intros H1 H2. apply (FloatOrder.ltb_trans _ (Score r2)); done. Qed.

Lemma sorted_score_sorted l :
  score_sorted (ExchangeSort.exchange_sort score_gt l).
Proof.
  intros a b ra rb Hab Ha Hb.
  exact (ExchangeSortFacts.exchange_sort_sorted score_gt score_gt_irrefl score_gt_trans
           l a b ra rb Hab Ha Hb).
Qed.

Lemma score_sorted_take n l : score_sorted l → score_sorted (take n l).
Proof.
  intros Hs a b ra rb Hab Ha Hb.
  rewrite lookup_take in Ha, Hb. case_decide; [|done]. case_decide; [|done].
  apply (Hs a b); done.
Qed.

(** C1 (as amended): the result is ordered by score, descending in the sense
    of Go's [>] (no entry scores higher than one before it), and its entries
    are scored input events, each used at most once. *)
Theorem GetRecommendations_sorted clock stocks limit :
  score_sorted (GetRecommendations clock stocks limit) ∧
  GetRecommendations clock stocks limit ⊆+ scored clock stocks.
Proof.
  unfold GetRecommendations. destruct stocks as [|s0 rest] eqn:Hs.
  - split; [intros ? ? ? ? ? Ha; done | apply submseteq_nil_l].
  - rewrite <- Hs. set (l := ExchangeSort.exchange_sort score_gt (scored clock stocks)).
    assert (Hp : l ≡ₚ scored clock stocks) by apply ExchangeSortFacts.exchange_sort_perm.
    destruct (_ && _).
    + split; [apply score_sorted_take, sorted_score_sorted|].
      rewrite <- Hp. apply submseteq_take.
    + split; [apply sorted_score_sorted|]. rewrite Hp. done.
Qed.

(** C1: the ranking is not stable.  "A" and "B" have equal scores, "A" comes
    first in the input, and "B" comes before "A" in the output. *)
Lemma GetRecommendations_not_stable :
  map (fun r => Ticker (RStock r))
    (GetRecommendations clock0
       [plain_stock "A" "hold"; plain_stock "B" "hold"; plain_stock "C" "upgrade"] 10)
    = ["C"; "B"; "A"] ∧
  Score (recommend 0 (plain_stock "A" "hold")) = Score (recommend 0 (plain_stock "B" "hold")).
Proof. vm_compute. split; reflexivity. Qed.

Lemma scored_length clock stocks : length (scored clock stocks) = length stocks.
Proof. apply length_imap. Qed.

(** C2 (as amended): with a positive [limit] the result has
    [min(limit, len(stocks))] entries; with [limit <= 0] nothing is cut and
    every stock is returned.  No stocks give no recommendations. *)
Theorem GetRecommendations_length clock stocks limit :
  length (GetRecommendations clock stocks limit) =
    (if (0 <? limit)%Z then Nat.min (Z.to_nat limit) (length stocks) else length stocks).
Proof.
  unfold GetRecommendations. destruct stocks as [|s0 rest] eqn:Hs.
  - simpl. destruct (0 <? limit)%Z; lia.
  - rewrite <- Hs.
    assert (Hl : length (ExchangeSort.exchange_sort score_gt (scored clock stocks)) = length stocks)
      by (rewrite (Permutation_length (ExchangeSortFacts.exchange_sort_perm _ _)); apply scored_length).
    destruct (0 <? limit)%Z eqn:H0; simpl.
    + destruct (limit <? _)%Z eqn:H1; rewrite ?length_take, Hl; rewrite Hl in H1;
        apply Z.ltb_lt in H0; [apply Z.ltb_lt in H1 | apply Z.ltb_ge in H1]; lia.
    + done.
Qed.

(** C2: a non-positive limit does not mean "10": eleven stocks with limit 0
    give eleven recommendations. *)
Lemma GetRecommendations_limit_zero_keeps_all :
  length (GetRecommendations clock0 (replicate 11 (plain_stock "A" "hold")) 0) = 11 ∧
  length (GetRecommendations clock0 (replicate 11 (plain_stock "A" "hold")) 0) ≠ Nat.min 10 11.
Proof. vm_compute. split; [reflexivity | discriminate]. Qed.

End Ranking.

(** ** Sub-scores *)

Module SubScores.

Lemma has_prefix_substring s p :
  has_prefix s p = String.eqb (substring 0 (String.length p) s) p.
Proof.
  revert s; induction p as [|c p IH]; intros [|d s]; try reflexivity.
  cbn [has_prefix String.length substring]. rewrite IH. cbn [String.eqb].
  destruct (Ascii.eqb_spec c d), (Ascii.eqb_spec d c); congruence || reflexivity.
Qed.

Lemma Contains_spec s p : Contains s p = contains_spec s p.
Proof.
  unfold contains_spec. induction s as [|c s IH].
  - cbn [Contains]. rewrite has_prefix_substring. cbn [String.length seq existsb].
    by rewrite orb_false_r.
  - cbn [Contains]. rewrite IH, has_prefix_substring.
    change (seq 0 (S (String.length (String c s)))) with (0%nat :: seq 1 (S (String.length s))).
    rewrite <- seq_shift. cbn [existsb]. f_equal. generalize (seq 0 (S (String.length s))).
    intros l. induction l as [|i l IHl]; [reflexivity|]. cbn [map existsb]. by rewrite IHl.
Qed.

(** C5: the action sub-score is the first matching rule of the list, each
    rule a substring test on the lower-cased action (so the case of the
    action does not matter); "Upgraded price target" and "UPGRADE" score 10,
    and "İnitiated", whose capital I with dot above (U+0130) Go lowers
    to "i", scores 8. *)
Theorem getActionScore_rules action :
  getActionScore action = action_score_spec action ∧
  getActionScore (ToLower action) = getActionScore action ∧
  getActionScore "Upgraded price target" = 10%float ∧
  getActionScore "UPGRADE" = 10%float ∧
  getActionScore (Utf8.EncodeRune 0x130 ++ "nitiated") = 8%float.
Proof.
  split; [|split; [|split; [|split]]].
  - unfold getActionScore, action_score_spec, action_rules. cbn [first_match]. cbv zeta.
    rewrite !Contains_spec. reflexivity.
  - unfold getActionScore. rewrite GoStringsFacts.ToLower_idem. reflexivity.
  - vm_compute. reflexivity.
  - vm_compute. reflexivity.
  - vm_compute. reflexivity.
Qed.

Lemma map_lookup_ratingValues k v :
  map_lookup ratingValues k = Some v →
  v = 1%float ∨ v = 2%float ∨ v = 3%float ∨ v = 4%float ∨ v = 5%float.
Proof.
  unfold ratingValues. simpl.
  repeat (destruct (String.eqb _ _); [intros [= <-]; tauto|]). discriminate.
Qed.

Lemma getRatingValue_cases r :
  let v := getRatingValue r ratingValues in
  v = 1%float ∨ v = 2%float ∨ v = 3%float ∨ v = 4%float ∨ v = 5%float.
Proof.
  unfold getRatingValue. destruct (String.eqb _ _); [tauto|].
  destruct (map_lookup _ _) eqn:H; [apply (map_lookup_ratingValues _ _ H)|tauto].
Qed.

(** C4: the rating sub-score is [toValue * 2 + (toValue - fromValue) * 2]
    for the values of the ordinal table, looked up after trimming and
    lower-casing, with 3 for an empty or unknown rating; the table gives the
    listed terms their values (also when padded with white space, such as
    the no-break space U+00A0), "Neutral" to "Buy" scores 10, and so does
    an empty rating to "Buy" preceded by a no-break space. *)
Theorem getRatingImprovementScore_formula ratingFrom ratingTo :
  getRatingImprovementScore ratingFrom ratingTo =
    (let fromValue := getRatingValue ratingFrom ratingValues in
     let toValue := getRatingValue ratingTo ratingValues in
     toValue * 2 + (toValue - fromValue) * 2)%float ∧
  (map_lookup ratingValues (ToLower (TrimSpace ratingTo)) = None →
     getRatingValue ratingTo ratingValues = 3%float) ∧
  map (fun r => getRatingValue r ratingValues)
    ["strong buy"; "strong-buy"; "buy"; "overweight"; "outperform"; "hold"; "neutral";
     "underweight"; "underperform"; "reduce"; "sell"; ""; "  Strong Buy "; nbsp ++ "Strong Buy" ++ nbsp]
    = [5; 5; 4; 4; 4; 3; 3; 2; 2; 2; 1; 3; 5; 5]%float ∧
  getRatingImprovementScore "Neutral" "Buy" = 10%float ∧
  getRatingImprovementScore "" (nbsp ++ "Buy") = 10%float.
Proof.
  split; [|split; [|split; [vm_compute; reflexivity|split; vm_compute; reflexivity]]].
  - unfold getRatingImprovementScore.
    destruct (getRatingValue_cases ratingFrom) as [->|[->|[->|[->| ->]]]];
    destruct (getRatingValue_cases ratingTo) as [->|[->|[->|[->| ->]]]];
    vm_compute; reflexivity.
  - intros H. unfold getRatingValue. rewrite H. destruct (String.eqb _ _); reflexivity.
Qed.

End SubScores.

(** ** The end-to-end scenario *)

Module Scenario.

(** C3: the upgrade by Goldman Sachs from Neutral to Buy with targets $200.00
    and $244.00, two hours old, scores exactly
    [10*0.30 + 10*0.25 + 10*0.20 + 10*0.15 + 10*0.10 = 10.0] (the 22% delta
    gives the target sub-score 11, capped at 10), with the reason
    "Recent upgrade; Rating improved to Buy; 22.0% price target increase;
    Rated by Goldman Sachs". *)
Theorem goldman_upgrade_scores_10 :
  GetRecommendations (fun _ => now_ns) [goldman_upgrade] 10 =
    [mkRecommendation goldman_upgrade
       (10 * 0.30 + 10 * 0.25 + 10 * 0.20 + 10 * 0.15 + 10 * 0.10)%float
       "Recent upgrade; Rating improved to Buy; 22.0% price target increase; Rated by Goldman Sachs"
       22%float] ∧
  (10 * 0.30 + 10 * 0.25 + 10 * 0.20 + 10 * 0.15 + 10 * 0.10)%float = 10%float ∧
  (calculateTargetPriceIncrease "$200.00" "$244.00" / 2)%float = 11%float.
Proof. vm_compute. split; [reflexivity | split; reflexivity]. Qed.

End Scenario.

(** ** Target prices that parse to NaN *)

Module NaNPrices.

(** C6: the documented price strings parse as stated, but "NaN" is accepted
    by ParseFloat: it is not strictly positive, yet it passes the guard
    [from <= 0 || to <= 0], the percentage delta is NaN, and so is the score. *)
Theorem nan_price_passes_guard :
  map parsePrice ["$200.00"; "$2,700.00"; "$85"; ""; "n/a"] = [200; 2700; 85; 0; 0]%float ∧
  (0 <? parsePrice "NaN")%float = false ∧
  (parsePrice "NaN" <=? 0)%float = false ∧
  PrimFloat.is_nan (calculateTargetPriceIncrease "NaN" "$10.00") = true ∧
  PrimFloat.is_nan (Score (recommend 0 nan_target)) = true.
Proof. vm_compute. repeat split; reflexivity. Qed.

(** C10: the NaN score of [nan_target] lies outside [-2.1, 12.0], whereas
    the extreme events score exactly 12.0 and -2.1. *)
Theorem nan_score_out_of_bounds :
  (-2.1 <=? Score (recommend 0 nan_target))%float = false ∧
  (Score (recommend 0 nan_target) <=? 12)%float = false ∧
  Score (recommend now_ns best_event) = 12%float ∧
  Score (recommend now_ns worst_event) = (-2.1)%float.
Proof. vm_compute. repeat split; reflexivity. Qed.

End NaNPrices.

(** ** The [limit] query parameter *)

Module HandlerLimit.

(** C8: the handler passes a limit in [1, 50]; it is 10 when the parameter is
    absent or not an integer, 50 above 50, 10 below 1, and the parsed value
    otherwise. *)
Theorem handler_limit_in_range params :
  (1 <= handler_limit params <= 50)%Z ∧
  handler_limit params =
    match Atoi (Query params "limit") with
    | None => 10%Z
    | Some n => if (50 <? n)%Z then 50%Z else if (n <? 1)%Z then 10%Z else n
    end.
Proof.
  unfold handler_limit, parseIntQuery.
  destruct (String.eqb (Query params "limit") "") eqn:E.
  - apply String.eqb_eq in E. rewrite E. simpl. lia.
  - destruct (Atoi _) as [n|]; [|simpl; lia].
    destruct (50 <? n)%Z eqn:H1; simpl; [lia|].
    destruct (n <? 1)%Z eqn:H2; [lia|].
    apply Z.ltb_ge in H1, H2. lia.
Qed.

End HandlerLimit.

(** ** The reason string *)

Module Reasons.

Lemma append_nonempty_r (s1 s2 : string) : s2 ≠ "" → (s1 ++ s2)%string ≠ "".
Proof. destruct s1; simpl; [done|discriminate]. Qed.

Lemma string_append_assoc (a b c : string) : ((a ++ b) ++ c)%string = (a ++ (b ++ c))%string.
Proof. induction a as [|x a IH]; simpl; [done|by rewrite IH]. Qed.

Lemma Join_nonempty (hs : list string) :
  Forall (fun h => h ≠ "") hs → hs ≠ [] → Join hs "; " ≠ "".
Proof.
  intros Hall Hne. destruct hs as [|h [|h' rest]]; [done| |].
  - by inversion Hall.
  - simpl. destruct h; [by inversion Hall|discriminate].
Qed.

(** The default of [calculateStockScore] applied to the joined highlights. *)
Lemma default_reason (hs : list string) :
  Forall (fun h => h ≠ "") hs →
  (if String.eqb (Join hs "; ") "" then "Positive outlook" else Join hs "; ") =
  match hs with [] => "Positive outlook" | _ => Join hs "; " end.
Proof.
  intros Hall. destruct hs as [|h rest]; [reflexivity|].
  destruct (String.eqb _ _) eqn:E; [|reflexivity].
  apply String.eqb_eq in E. exfalso. by apply (Join_nonempty (h :: rest)).
Qed.

Lemma zero_not_beyond_5 (t : float) :
  (t =? 0)%float = true → (5 <? t)%float = false ∧ (t <? -5)%float = false.
Proof.
  rewrite FloatAxioms.eqb_spec, !FloatAxioms.ltb_spec.
  change (Prim2SF 0%float) with (S754_zero false).
  change (Prim2SF 5%float) with (S754_finite false 5629499534213120 (-50)).
  change (Prim2SF (-5)%float) with (S754_finite true 5629499534213120 (-50)).
  destruct (Prim2SF t) as [[]|[]| |[] m e]; unfold SFeqb, SFltb, SFcompare;
    try discriminate; auto.
Qed.

Lemma singleton_nonempty (b : bool) (x y : string) :
  y ≠ "" → Forall (fun h => h ≠ "") (if b then [(x ++ y)%string] else []).
Proof.
  intros Hy. destruct b; [|constructor]. constructor; [|constructor].
  by apply append_nonempty_r.
Qed.

(** The reason returned by [calculateStockScore] is the reading [reason_spec]. *)
Lemma calculateStockScore_reason now stock :
  snd (fst (calculateStockScore now stock)) = reason_spec now stock.
Proof.
  unfold calculateStockScore, reason_spec, highlights.
  set (t := calculateTargetPriceIncrease (TargetFrom stock) (TargetTo stock)).
  destruct (3 <? getActionScore (Action stock))%float;
  destruct (3 <? getRatingImprovementScore (RatingFrom stock) (RatingTo stock))%float;
  destruct ((8 <=? getBrokerageScore (Brokerage stock))%float
              && negb (String.eqb (Brokerage stock) ""));
  (destruct (t =? 0)%float eqn:Ht;
   [destruct (zero_not_beyond_5 t Ht) as [-> ->]
   |destruct (5 <? t)%float; [|destruct (t <? -5)%float]]);
  cbn [negb fst snd app];
  apply default_reason;
  repeat constructor; first [discriminate | apply append_nonempty_r; discriminate].
Qed.

Lemma has_prefix_app (x q : string) : has_prefix (x ++ q) x = true.
Proof.
  induction x as [|c x IH]; simpl; [by destruct q|]. by rewrite Ascii.eqb_refl, IH.
Qed.

Lemma Contains_unfold (s sub : string) :
  Contains s sub = has_prefix s sub || match s with EmptyString => false | String _ s' => Contains s' sub end.
Proof. destruct s; reflexivity. Qed.

Lemma Contains_middle (p x q : string) : Contains (p ++ x ++ q) x = true.
Proof.
  induction p as [|c p IH].
  - rewrite Contains_unfold. simpl. by rewrite has_prefix_app.
  - simpl. rewrite IH. apply orb_true_r.
Qed.

Lemma string_append_nil_r (a : string) : (a ++ "")%string = a.
Proof. induction a as [|x a IH]; simpl; [done|by rewrite IH]. Qed.

Lemma Join_split (hs : list string) (sep h : string) :
  In h hs → ∃ p q, Join hs sep = (p ++ h ++ q)%string.
Proof.
  induction hs as [|x rest IH]; [done|]. intros [->|Hin].
  - destruct rest as [|y rest].
    + exists "", "". simpl. by rewrite string_append_nil_r.
    + exists "", (sep ++ Join (y :: rest) sep)%string. reflexivity.
  - destruct rest as [|y rest]; [done|].
    destruct (IH Hin) as (p & q & Hpq).
    exists (x ++ sep ++ p)%string, q.
    change (Join (x :: y :: rest) sep) with (x ++ sep ++ Join (y :: rest) sep)%string.
    by rewrite Hpq, !string_append_assoc.
Qed.

Lemma Contains_Join (hs : list string) (sep h : string) :
  In h hs → Contains (Join hs sep) h = true.
Proof.
  intros Hin. destruct (Join_split hs sep h Hin) as (p & q & ->). apply Contains_middle.
Qed.

(** C7: the reason is the "; "-joined list of the highlights in the order
    action, rating, price, brokerage ([highlights]), or "Positive outlook"
    when none fired; the age of the event plays no part in it. *)
Theorem reason_is_joined_highlights now now' t' stock :
  snd (fst (calculateStockScore now stock)) = reason_spec now stock ∧
  snd (fst (calculateStockScore now' (mkStock (Ticker stock) (Company stock) (Action stock)
      (Brokerage stock) (RatingFrom stock) (RatingTo stock) (TargetFrom stock)
      (TargetTo stock) t'))) =
  snd (fst (calculateStockScore now stock)).
Proof.
  rewrite !calculateStockScore_reason. split; reflexivity.
Qed.

(** C9: when the two ratings are the same string, with a value of at least 2,
    the rating sub-score is [toValue * 2 > 3] and the reason reports
    "Rating improved to <ratingTo>" although the rating did not change. *)
Theorem unchanged_rating_reported_as_improved now stock :
  RatingFrom stock = RatingTo stock →
  (2 <=? getRatingValue (RatingTo stock) ratingValues)%float = true →
  getRatingImprovementScore (RatingFrom stock) (RatingTo stock) =
    (getRatingValue (RatingTo stock) ratingValues * 2)%float ∧
  (3 <? getRatingImprovementScore (RatingFrom stock) (RatingTo stock))%float = true ∧
  Contains (snd (fst (calculateStockScore now stock)))
    ("Rating improved to " ++ RatingTo stock) = true.
Proof.
  intros Heq H2.
  assert (Hscore : getRatingImprovementScore (RatingFrom stock) (RatingTo stock) =
                   (getRatingValue (RatingTo stock) ratingValues * 2)%float ∧
                   (3 <? getRatingImprovementScore (RatingFrom stock) (RatingTo stock))%float = true).
  { rewrite Heq. unfold getRatingImprovementScore.
    destruct (SubScores.getRatingValue_cases (RatingTo stock)) as [E|[E|[E|[E|E]]]];
      rewrite E in *; [discriminate H2| | | |]; vm_compute; split; reflexivity. }
  destruct Hscore as [Hs H3]. split; [done|]. split; [done|].
  rewrite calculateStockScore_reason. unfold reason_spec, highlights. rewrite H3.
  match goal with
  | |- Contains (match ?hs with [] => _ | _ :: _ => _ end) _ = true =>
      assert (Hin : In ("Rating improved to " ++ RatingTo stock)%string hs)
        by (apply in_or_app; right; left; reflexivity);
      destruct hs as [|h rest]; [done|]
  end.
  by apply Contains_Join.
Qed.

(** A stock whose ratings are both empty: neutral to neutral. *)
Lemma unchanged_rating_reported_as_improved_witness :
  RatingFrom (plain_stock "A" "hold") = RatingTo (plain_stock "A" "hold") ∧
  (2 <=? getRatingValue (RatingTo (plain_stock "A" "hold")) ratingValues)%float = true ∧
  Contains (snd (fst (calculateStockScore 0 (plain_stock "A" "hold"))))
    ("Rating improved to " ++ RatingTo (plain_stock "A" "hold")) = true.
Proof.
  split; [reflexivity|]. split; [vm_compute; reflexivity|].
  apply (unchanged_rating_reported_as_improved 0 (plain_stock "A" "hold"));
    [reflexivity | vm_compute; reflexivity].
Defined.

End Reasons.

Module DecimalFacts.

Lemma digit_char_ok d : 0 <= d < 10 → is_digit (digit_char d) = true ∧ digit_value (digit_char d) = d.
Proof.
  intros H. assert (d = 0 ∨ d = 1 ∨ d = 2 ∨ d = 3 ∨ d = 4 ∨ d = 5 ∨ d = 6 ∨ d = 7 ∨ d = 8 ∨ d = 9)
    as Hd by lia.
  repeat destruct Hd as [->|Hd]; try (subst d); split; reflexivity.
Qed.

Lemma digits_value_app ds t a :
  digits_value (ds ++ t) a = match digits_value ds a with Some v => digits_value t v | None => None end.
Proof.
  revert a. induction ds as [|c ds IH]; intros a; simpl; [done|].
  destruct (is_digit c); [apply IH|done].
Qed.

Lemma string_of_Z_fuel_spec f : ∀ n acc, 0 <= n < 10 ^ Z.of_nat (S f) →
  ∃ ds, string_of_Z_fuel (S f) n acc = (ds ++ acc) ∧ ds ≠ "" ∧ all_digits ds = true ∧
        digits_value ds 0 = Some n.
Proof.
  induction f as [|f IH]; intros n acc Hn.
  - assert (Hn10 : n < 10) by (simpl in Hn; lia).
    destruct (digit_char_ok (n mod 10)) as [D V]; [apply Z.mod_pos_bound; lia|].
    exists (String (digit_char (n mod 10)%Z) ""). simpl.
    replace (n <? 10)%Z with true by (symmetry; apply Z.ltb_lt; lia).
    rewrite D, V, Z.mod_small by lia. repeat split; done.
  - destruct (digit_char_ok (n mod 10)) as [D V]; [apply Z.mod_pos_bound; lia|].
    change (string_of_Z_fuel (S (S f)) n acc) with
      (if (n <? 10)%Z then String (digit_char (n mod 10)) acc
       else string_of_Z_fuel (S f) (n / 10) (String (digit_char (n mod 10)) acc)).
    destruct (n <? 10)%Z eqn:Hlt.
    + apply Z.ltb_lt in Hlt.
      exists (String (digit_char (n mod 10)%Z) ""). simpl.
      rewrite D, V, Z.mod_small by lia. repeat split; done.
    + apply Z.ltb_ge in Hlt.
      destruct (IH (n / 10)%Z (String (digit_char (n mod 10)%Z) acc)) as (ds & E & Hne & Hall & Hval).
      { split; [apply Z.div_pos; lia|].
        apply Z.div_lt_upper_bound; [lia|].
        rewrite <- Z.pow_succ_r by lia. replace (Z.succ (Z.of_nat (S f))) with (Z.of_nat (S (S f))) by lia.
        lia. }
      exists (ds ++ String (digit_char (n mod 10)%Z) "").
      rewrite E, Reasons.string_append_assoc. split; [reflexivity|].
      split; [destruct ds; [done|discriminate]|].
      split.
      * clear -Hall D. induction ds as [|c ds IHds]; simpl in *; [by rewrite D|].
        apply andb_prop in Hall as [-> H]. by apply IHds.
      * rewrite digits_value_app, Hval. simpl. rewrite D, V.
        f_equal. pose proof (Z.div_mod n 10). lia.
Qed.

Lemma string_of_Z_spec n : 0 <= n →
  string_of_Z n ≠ "" ∧ all_digits (string_of_Z n) = true ∧ digits_value (string_of_Z n) 0 = Some n.
Proof.
  intros Hn. unfold string_of_Z.
  set (k := Z.log2 (Z.max 1 n)).
  destruct (string_of_Z_fuel_spec (Z.to_nat k) n "") as (ds & E & H1 & H2 & H3).
  { split; [done|].
    assert (Hk : 0 <= k) by apply Z.log2_nonneg.
    replace (Z.of_nat (S (Z.to_nat k))) with (Z.succ k) by lia.
    destruct (Z.log2_spec (Z.max 1 n)) as [_ Hup]; [lia|]. fold k in Hup.
    apply (Z.lt_le_trans _ (2 ^ Z.succ k)); [lia|].
    apply Z.pow_le_mono_l; lia. }
  rewrite E, Reasons.string_append_nil_r. done.
Qed.

Lemma digit_not_sign c : is_digit c = true → Ascii.eqb c "-" = false ∧ Ascii.eqb c "+" = false.
Proof.
  intros H. split.
  - destruct (Ascii.eqb_spec c "-") as [->|]; [discriminate|reflexivity].
  - destruct (Ascii.eqb_spec c "+") as [->|]; [discriminate|reflexivity].
Qed.

Lemma Atoi_Itoa n : - 2 ^ 63 <= n < 2 ^ 63 → Atoi (Itoa n) = Some n.
Proof.
  intros Hn. unfold Itoa. destruct (n <? 0)%Z eqn:Hneg.
  - apply Z.ltb_lt in Hneg.
    destruct (string_of_Z_spec (- n)) as (Hne & _ & Hval); [lia|].
    unfold Atoi. simpl. destruct (string_of_Z (- n)) as [|c r] eqn:E; [done|].
    rewrite Hval. rewrite Z.opp_involutive.
    replace ((- 2 ^ 63 <=? n)%Z && (n <? 2 ^ 63)%Z) with true; [done|].
    symmetry. apply andb_true_intro. split; [apply Z.leb_le|apply Z.ltb_lt]; lia.
  - apply Z.ltb_ge in Hneg.
    destruct (string_of_Z_spec n) as (Hne & Hall & Hval); [lia|].
    unfold Atoi. destruct (string_of_Z n) as [|c r] eqn:E; [done|].
    simpl in Hall. apply andb_prop in Hall as [Hc _].
    destruct (digit_not_sign c Hc) as [-> ->].
    rewrite Hval.
    replace ((- 2 ^ 63 <=? n)%Z && (n <? 2 ^ 63)%Z) with true; [done|].
    symmetry. apply andb_true_intro. split; [apply Z.leb_le|apply Z.ltb_lt]; lia.
Qed.

Lemma Itoa_nonempty n : Itoa n ≠ "".
Proof.
  unfold Itoa. destruct (n <? 0)%Z eqn:E; [done|]. apply Z.ltb_ge in E.
  destruct (DecimalFacts.string_of_Z_spec n) as [H _]; [lia|done].
Qed.

Lemma parseIntQuery_Itoa_aux params key d n :
  (- 2 ^ 63 <= n < 2 ^ 63)%Z → Query params key = Itoa n → parseIntQuery params key d = n.
Proof.
  intros Hn Hq. unfold parseIntQuery. rewrite Hq.
  destruct (String.eqb_spec (Itoa n) "") as [E|_]; [by apply Itoa_nonempty in E|].
  by rewrite DecimalFacts.Atoi_Itoa.
Qed.

End DecimalFacts.

Module RepoFacts.
Import Repo.

Lemma scan_nondigit t v : (∀ c t', t = String c t' → is_digit c = false) →
  scan t (Some v) = v :: scan t None.
Proof. intros H. destruct t as [|c t']; [done|]. simpl. by rewrite (H c t' eq_refl). Qed.

Lemma scan_app q t st : (∀ c t', t = String c t' → is_digit c = false) →
  scan (q ++ t) st = (scan q st ++ scan t None)%list.
Proof.
  intros H. revert st. induction q as [|c q IH]; intros st.
  - destruct st as [v|]; [|done]. simpl. by apply scan_nondigit.
  - destruct st as [v|]; simpl; repeat case_match; rewrite ?IH; reflexivity.
Qed.

Lemma scan_digits ds t a v : all_digits ds = true → digits_value ds a = Some v →
  scan (ds ++ t) (Some a) = scan t (Some v).
Proof.
  revert a. induction ds as [|c ds IH]; intros a Hall Hv; simpl in *.
  - by injection Hv as ->.
  - apply andb_prop in Hall as [Hc Hall]. rewrite Hc in Hv |- *. by apply IH.
Qed.

Lemma scan_string_of_Z n t : 0 <= n → (∀ c t', t = String c t' → is_digit c = false) →
  scan (string_of_Z n ++ t) (Some 0) = n :: scan t None.
Proof.
  intros Hn Ht. destruct (DecimalFacts.string_of_Z_spec n Hn) as (_ & Hall & Hval).
  rewrite (scan_digits _ _ _ _ Hall Hval). by apply scan_nondigit.
Qed.


Lemma seq_snoc_map k : map Z.of_nat (seq 1 (S k)) = (map Z.of_nat (seq 1 k) ++ [Z.of_nat k + 1])%list.
Proof. rewrite seq_S, map_app. simpl. do 2 f_equal. lia. Qed.

Lemma add_eq_numbered cond v st :
  (∀ t, scan (cond ++ t) None = scan t (Some 0)) →
  (∃ c cond', cond = String c cond' ∧ is_digit c = false) →
  numbered st → numbered (add_eq cond v st).
Proof.
  destruct st as [[q a] p]. intros Hc (c & cond' & Hcond & Hd) [Hq Hp]. cbn [numbered add_eq].
  unfold placeholders in *. rewrite length_app. cbn [length]. split; [|lia].
  rewrite scan_app by (rewrite Hcond; intros ? ? [= <- <-]; done).
  rewrite Hq, Hc, <- (Reasons.string_append_nil_r (string_of_Z p)).
  rewrite scan_string_of_Z by (lia || done).
  replace (length a + 1)%nat with (S (length a)) by lia.
  rewrite seq_snoc_map. simpl. do 3 f_equal. lia.
Qed.

Lemma add_fuzzy_numbered col v st :
  (∀ t, scan (" AND (" ++ col ++ " ILIKE $" ++ t) None = scan t (Some 0)) →
  (∀ t, scan (" OR " ++ col ++ " % $" ++ t) None = scan t (Some 0)) →
  numbered st → numbered (add_fuzzy col v st).
Proof.
  destruct st as [[q a] p]. intros H1 H2 [Hq Hp]. cbn [numbered add_fuzzy].
  unfold placeholders in *. rewrite !length_app. cbn [length]. split; [|lia].
  rewrite scan_app by (intros ? ? [= <- <-]; done).
  rewrite Hq, H1, scan_string_of_Z by (lia || (intros ? ? [= <- <-]; done)).
  rewrite H2, scan_string_of_Z by (lia || (intros ? ? [= <- <-]; done)).
  replace (length a + 1 + 1)%nat with (S (S (length a))) by lia.
  rewrite !seq_snoc_map, <- app_assoc. simpl. do 2 f_equal; [lia|]. f_equal. lia.
Qed.

Lemma if_numbered (b : bool) (g : state → state) st :
  numbered st → (numbered st → numbered (g st)) → numbered (if b then g st else st).
Proof. destruct b; auto. Qed.

Ltac numbered_steps :=
  repeat first
    [ assumption
    | apply if_numbered; [| intros ?;
        first [ apply add_eq_numbered;
                  [intros; reflexivity | eexists _, _; split; reflexivity | assumption]
              | apply add_fuzzy_numbered; [intros; reflexivity | intros; reflexivity | assumption]]] ].

Lemma common_conditions_numbered f st : numbered st → numbered (common_conditions f st).
Proof. intros H. unfold common_conditions. cbv zeta. numbered_steps. Qed.

Lemma FindAll_conditions_numbered f st : numbered st → numbered (FindAll_conditions f st).
Proof.
  intros H. unfold FindAll_conditions. cbv zeta.
  apply if_numbered; [by apply common_conditions_numbered|].
  intros. apply add_eq_numbered; [intros; reflexivity | eexists _, _; split; reflexivity | assumption].
Qed.

Lemma order_column_valid f : In (order_column f) validSortFields.
Proof.
  unfold order_column. cbv zeta.
  destruct (negb _); [|simpl; tauto].
  destruct (existsb _ _) eqn:E; [|simpl; tauto].
  apply existsb_exists in E as (x & Hx & Heq). apply String.eqb_eq in Heq. by subst.
Qed.

Lemma order_direction_cases f : order_direction f = "ASC" ∨ order_direction f = "DESC".
Proof. unfold order_direction. destruct (_ || _); auto. Qed.

Lemma scan_order f : scan (" ORDER BY " ++ order_column f ++ " " ++ order_direction f) None = [].
Proof.
  pose proof (order_column_valid f) as Hc.
  repeat destruct Hc as [<-|Hc]; try contradiction;
    destruct (order_direction_cases f) as [->| ->]; reflexivity.
Qed.

Lemma findAll_base_numbered : numbered (findAll_base, [], 1%Z).
Proof. split; reflexivity. Qed.

Lemma count_base_numbered : numbered (count_base, [], 1%Z).
Proof. split; reflexivity. Qed.

Lemma nondigit_space t : ∀ c t', (" " ++ t)%string = String c t' → is_digit c = false.
Proof. intros ? ? [= <- <-]. done. Qed.

Lemma scan_tail q lit n :
  (∀ t, scan (lit ++ t) None = scan t (Some 0)) →
  (∃ c l', lit = String c l' ∧ is_digit c = false) → 0 <= n →
  scan (q ++ lit ++ string_of_Z n) None = (scan q None ++ [n])%list.
Proof.
  intros Hl (c & l' & Hlit & Hd) Hn.
  rewrite scan_app by (rewrite Hlit; intros ? ? [= <- <-]; done).
  rewrite Hl, <- (Reasons.string_append_nil_r (string_of_Z n)), scan_string_of_Z by (lia || done).
  reflexivity.
Qed.

Lemma seq_length_snoc {A} (a : list A) x :
  map Z.of_nat (seq 1 (length (a ++ [x]))) = (map Z.of_nat (seq 1 (length a)) ++ [Z.of_nat (length a) + 1])%list.
Proof. rewrite length_app. simpl. replace (length a + 1)%nat with (S (length a)) by lia. apply seq_snoc_map. Qed.

Lemma scan_order_app q f : scan (q ++ " ORDER BY " ++ order_column f ++ " " ++ order_direction f) None = scan q None.
Proof.
  rewrite scan_app by (intros ? ? [= <- <-]; done). rewrite scan_order. apply app_nil_r.
Qed.

Lemma add_eq_tp c v1 v2 (s1 s2 : state) :
  (fst (fst s1), snd s1) = (fst (fst s2), snd s2) →
  (fst (fst (add_eq c v1 s1)), snd (add_eq c v1 s1)) = (fst (fst (add_eq c v2 s2)), snd (add_eq c v2 s2)).
Proof. destruct s1 as [[q1 a1] p1], s2 as [[q2 a2] p2]. cbn. intros [= -> ->]. reflexivity. Qed.

Lemma add_fuzzy_tp c v1 v2 (s1 s2 : state) :
  (fst (fst s1), snd s1) = (fst (fst s2), snd s2) →
  (fst (fst (add_fuzzy c v1 s1)), snd (add_fuzzy c v1 s1)) = (fst (fst (add_fuzzy c v2 s2)), snd (add_fuzzy c v2 s2)).
Proof. destruct s1 as [[q1 a1] p1], s2 as [[q2 a2] p2]. cbn. intros [= -> ->]. reflexivity. Qed.

Lemma if_tp (b1 b2 : bool) (g1 g2 : state → state) (s1 s2 : state) : b1 = b2 →
  (fst (fst s1), snd s1) = (fst (fst s2), snd s2) →
  ((fst (fst s1), snd s1) = (fst (fst s2), snd s2) → (fst (fst (g1 s1)), snd (g1 s1)) = (fst (fst (g2 s2)), snd (g2 s2))) →
  (fst (fst (if b1 then g1 s1 else s1)), snd (if b1 then g1 s1 else s1)) =
  (fst (fst (if b2 then g2 s2 else s2)), snd (if b2 then g2 s2 else s2)).
Proof. intros <-. destruct b1; auto. Qed.

Lemma common_conditions_tp f g s1 s2 :
  String.eqb (Ticker f) "" = String.eqb (Ticker g) "" →
  String.eqb (Company f) "" = String.eqb (Company g) "" →
  String.eqb (Brokerage f) "" = String.eqb (Brokerage g) "" →
  String.eqb (Action f) "" = String.eqb (Action g) "" →
  String.eqb (RatingFrom f) "" = String.eqb (RatingFrom g) "" →
  (fst (fst s1), snd s1) = (fst (fst s2), snd s2) →
  (fst (fst (common_conditions f s1)), snd (common_conditions f s1)) =
  (fst (fst (common_conditions g s2)), snd (common_conditions g s2)).
Proof.
  intros H1 H2 H3 H4 H5 H. unfold common_conditions. cbv zeta.
  repeat first
    [ assumption
    | apply if_tp; [congruence | | intros; first [apply add_eq_tp | apply add_fuzzy_tp]; assumption] ].
Qed.

Lemma add_eq_frame c v q a s : add_eq c v (frame q a s) = frame q a (add_eq c v s).
Proof.
  destruct s as [[w b] p]. unfold frame. cbn [add_eq fst snd].
  by rewrite Reasons.string_append_assoc, app_assoc.
Qed.

Lemma add_fuzzy_frame c v q a s : add_fuzzy c v (frame q a s) = frame q a (add_fuzzy c v s).
Proof.
  destruct s as [[w b] p]. unfold frame. cbn [add_fuzzy fst snd].
  by rewrite Reasons.string_append_assoc, !app_assoc.
Qed.

Lemma common_conditions_frame f q a s :
  common_conditions f (frame q a s) = frame q a (common_conditions f s).
Proof.
  unfold common_conditions. cbv zeta.
  repeat destruct (negb _); repeat first [rewrite add_eq_frame | rewrite add_fuzzy_frame]; reflexivity.
Qed.

Lemma frame_base q : (q, [], 1%Z) = frame q [] ("", [], 1%Z).
Proof. unfold frame. cbn. by rewrite Reasons.string_append_nil_r. Qed.

Lemma empty_numbered : numbered ("", [], 1%Z).
Proof. split; reflexivity. Qed.

End RepoFacts.

Module RepoThms.
Import Repo RepoFacts.

(** The texts that [FindAll] and [Count] send number their placeholders
    [$1, $2, ...] in order, one per argument sent with them. *)
Theorem queries_placeholders_numbered f :
  placeholders (fst (FindAll_query f)) = map Z.of_nat (seq 1 (length (snd (FindAll_query f)))) ∧
  placeholders (fst (Count_query f)) = map Z.of_nat (seq 1 (length (snd (Count_query f)))).
Proof.
  split.
  - unfold FindAll_query.
    pose proof (FindAll_conditions_numbered f _ findAll_base_numbered) as N.
    destruct (FindAll_conditions f (findAll_base, [], 1%Z)) as [[q a] p].
    destruct N as [Hq Hp]. unfold placeholders in *.
    destruct (0 <? Limit f)%Z, (0 <? Offset f)%Z; cbn [fst snd];
      rewrite ?scan_tail by (intros; reflexivity || (eexists _, _; split; reflexivity) || lia);
      rewrite ?scan_tail by (intros; reflexivity || (eexists _, _; split; reflexivity) || lia);
      rewrite ?scan_order_app, ?seq_length_snoc, ?seq_length_snoc, ?length_app, ?Hq; cbn [length];
      rewrite ?seq_length_snoc; try reflexivity.
    all: subst p; rewrite ?Nat2Z.inj_add; reflexivity.
  - unfold Count_query, Count_conditions. cbv zeta.
    pose proof (common_conditions_numbered f _ count_base_numbered) as N.
    destruct (common_conditions f (count_base, [], 1%Z)) as [[q a] p].
    destruct N as [Hq Hp]. unfold placeholders in *.
    destruct (negb _); cbn [fst snd]; [|exact Hq].
    rewrite scan_tail by (intros; reflexivity || (eexists _, _; split; reflexivity) || lia).
    rewrite seq_length_snoc, Hq. by subst p.
Qed.

(** The SQL texts of [FindAll] and [Count] depend on the filter only through
    its [shape]: no filter value is ever written into them, the values are
    only sent as arguments. *)
Theorem query_text_shape_only f g :
  shape f = shape g →
  fst (FindAll_query f) = fst (FindAll_query g) ∧ fst (Count_query f) = fst (Count_query g).
Proof.
  unfold shape. intros H. injection H as H1 H2 H3 H4 H5 H6 H7 H8 H9 H10.
  assert (C : ∀ s1 s2, (fst (fst s1), snd s1) = (fst (fst s2), snd s2) →
     (fst (fst (common_conditions f s1)), snd (common_conditions f s1)) =
     (fst (fst (common_conditions g s2)), snd (common_conditions g s2)))
    by (intros; by apply common_conditions_tp).
  split.
  - unfold FindAll_query.
    assert (T : (fst (fst (FindAll_conditions f (findAll_base, [], 1%Z))), snd (FindAll_conditions f (findAll_base, [], 1%Z))) =
                (fst (fst (FindAll_conditions g (findAll_base, [], 1%Z))), snd (FindAll_conditions g (findAll_base, [], 1%Z)))).
    { unfold FindAll_conditions. cbv zeta.
      apply if_tp; [congruence | by apply C | intros; by apply add_eq_tp]. }
    destruct (FindAll_conditions f _) as [[q1 a1] p1], (FindAll_conditions g _) as [[q2 a2] p2].
    cbn in T. injection T as -> ->.
    rewrite H7, H8, H9, H10. destruct (0 <? Limit g)%Z, (0 <? Offset g)%Z; reflexivity.
  - unfold Count_query, Count_conditions. cbv zeta.
    specialize (C (count_base, [], 1%Z) (count_base, [], 1%Z) eq_refl).
    destruct (common_conditions f _) as [[q1 a1] p1], (common_conditions g _) as [[q2 a2] p2].
    cbn in C. injection C as -> ->. rewrite H6. destruct (negb _); reflexivity.
Qed.

Lemma FindAll_Count_tail f : ∃ w args,
  Count_query f = (count_base ++ w, args) ∧
  FindAll_query f =
   (findAll_base ++ w ++ " ORDER BY " ++ order_column f ++ " " ++ order_direction f ++
      (if (0 <? Limit f)%Z then " LIMIT $" ++ string_of_Z (Z.of_nat (length args) + 1) else "") ++
      (if (0 <? Offset f)%Z
       then " OFFSET $" ++ string_of_Z (Z.of_nat (length args) + 1 + (if (0 <? Limit f)%Z then 1 else 0))
       else ""),
    (args ++ (if (0 <? Limit f)%Z then [ArgInt (Limit f)] else []) ++
       (if (0 <? Offset f)%Z then [ArgInt (Offset f)] else []))%list).
Proof.
  unfold FindAll_query, Count_query, FindAll_conditions, Count_conditions. cbv zeta.
  rewrite (frame_base findAll_base), (frame_base count_base), !common_conditions_frame.
  pose proof (common_conditions_numbered f _ empty_numbered) as N.
  assert (E0 : ∀ x, ("" ++ x)%string = x) by reflexivity.
  destruct (common_conditions f ("", [], 1%Z)) as [[w b] p]. destruct N as [_ Hp].
  destruct (negb _).
  - rewrite add_eq_frame. unfold frame. cbn [add_eq fst snd].
    eexists _, _. split; [reflexivity|].
    rewrite length_app. cbn [length]. subst p.
    destruct (0 <? Limit f)%Z, (0 <? Offset f)%Z; cbn [fst snd app].
    all: rewrite ?Reasons.string_append_nil_r, ?Reasons.string_append_assoc, ?E0, <- ?app_assoc; cbn [app].
    all: rewrite ?Nat2Z.inj_add, ?Z.add_0_r; reflexivity.
  - unfold frame. cbn [fst snd].
    eexists _, _. split; [reflexivity|].
    subst p.
    destruct (0 <? Limit f)%Z, (0 <? Offset f)%Z; cbn [fst snd app].
    all: rewrite ?Reasons.string_append_nil_r, ?Reasons.string_append_assoc, ?E0, <- ?app_assoc; cbn [app].
    all: rewrite ?Nat2Z.inj_add, ?Z.add_0_r, ?app_nil_r; reflexivity.
Qed.

(** [Count] runs the same WHERE conditions, with the same arguments, as
    [FindAll]; [FindAll] then appends ORDER BY, and a LIMIT and an OFFSET
    placeholder only for a positive limit and a positive offset. *)
Theorem FindAll_Count_shared f : ∃ w args,
  Count_query f = (count_base ++ w, args) ∧
  FindAll_query f =
   (findAll_base ++ w ++ " ORDER BY " ++ order_column f ++ " " ++ order_direction f ++
      (if (0 <? Limit f)%Z then " LIMIT $" ++ string_of_Z (Z.of_nat (length args) + 1) else "") ++
      (if (0 <? Offset f)%Z
       then " OFFSET $" ++ string_of_Z (Z.of_nat (length args) + 1 + (if (0 <? Limit f)%Z then 1 else 0))
       else ""),
    (args ++ (if (0 <? Limit f)%Z then [ArgInt (Limit f)] else []) ++
       (if (0 <? Offset f)%Z then [ArgInt (Offset f)] else []))%list).
Proof. apply FindAll_Count_tail. Qed.

(** The ORDER BY column is always one of [validSortFields]: [sortBy] when it
    is one of them, "time" otherwise, also for the documented options
    "rating_to" and "action"; the direction is "ASC" exactly for "asc" or
    "ASC", and "DESC" otherwise. *)
Theorem order_by_whitelist f :
  In (order_column f) validSortFields ∧
  (In (SortBy f) validSortFields → order_column f = SortBy f) ∧
  (¬ In (SortBy f) validSortFields → order_column f = "time") ∧
  (SortBy f = "rating_to" ∨ SortBy f = "action" → order_column f = "time") ∧
  (order_direction f = "ASC" ↔ SortOrder f = "asc" ∨ SortOrder f = "ASC") ∧
  (order_direction f ≠ "ASC" → order_direction f = "DESC").
Proof.
  assert (Hcol : ∀ g, In (SortBy g) validSortFields → order_column g = SortBy g).
  { intros g Hin. unfold order_column. cbv zeta.
    destruct (String.eqb_spec (SortBy g) "") as [E|_].
    - rewrite E in Hin. simpl in Hin. intuition discriminate.
    - replace (existsb (String.eqb (SortBy g)) validSortFields) with true; [done|].
      symmetry. apply existsb_exists. exists (SortBy g). split; [done|]. apply String.eqb_refl. }
  assert (Htime : ∀ g, ¬ In (SortBy g) validSortFields → order_column g = "time").
  { intros g Hin. unfold order_column. cbv zeta.
    destruct (negb _); [|done].
    destruct (existsb _ _) eqn:E; [|done].
    apply existsb_exists in E as (x & Hx & Heq). apply String.eqb_eq in Heq. subst x. done. }
  split; [apply order_column_valid|].
  split; [apply Hcol|]. split; [apply Htime|].
  split.
  { intros Hs. apply Htime. destruct Hs as [-> | ->]; simpl; intuition discriminate. }
  unfold order_direction.
  split.
  - destruct (String.eqb_spec (SortOrder f) "asc"), (String.eqb_spec (SortOrder f) "ASC");
      cbn [orb]; split; intros; try tauto; try discriminate; intuition.
  - destruct (_ || _); [done|]. done.
Qed.

(** [GET /stocks] with [limit=n] for a negative int64 [n]: the use case keeps
    [n], and the statement [FindAll] runs has no LIMIT clause, so every
    matching row is returned. *)
Theorem negative_limit_no_LIMIT params n :
  (- 2 ^ 63 <= n < 0)%Z → Query params "limit" = Itoa n →
  let f := ListStocks.GetStocks_filter (ListStocks.handler_filter params) in
  Limit f = n ∧
  ∃ w args,
    FindAll_query f =
      (findAll_base ++ w ++ " ORDER BY " ++ order_column f ++ " " ++ order_direction f ++
         (if (0 <? Offset f)%Z then " OFFSET $" ++ string_of_Z (Z.of_nat (length args) + 1) else ""),
       (args ++ (if (0 <? Offset f)%Z then [ArgInt (Offset f)] else []))%list).
Proof.
  intros Hn Hq f.
  assert (L : Limit f = n).
  { unfold f, ListStocks.GetStocks_filter. cbv zeta.
    assert (L0 : Limit (ListStocks.handler_filter params) = n)
      by (cbn [ListStocks.handler_filter Limit]; apply DecimalFacts.parseIntQuery_Itoa_aux; [lia|done]).
    rewrite L0. destruct (n =? 0)%Z eqn:E0; [apply Z.eqb_eq in E0; lia|].
    cbn iota. rewrite L0. destruct (1000 <? n)%Z eqn:E1; [apply Z.ltb_lt in E1; lia|]. done. }
  split; [done|].
  destruct (FindAll_Count_tail f) as (w & args & _ & ->).
  exists w, args. rewrite L. replace (0 <? n)%Z with false by (symmetry; apply Z.ltb_ge; lia).
  rewrite Z.add_0_r. reflexivity.
Qed.

Lemma query_text_shape_only_witness :
  shape (mkStockFilter "AAPL" "" "" "" "" "" "time" "desc" 50 0) =
    shape (mkStockFilter "x'; DROP TABLE stocks; --" "" "" "" "" "" "time" "desc" 50 0) ∧
  fst (FindAll_query (mkStockFilter "AAPL" "" "" "" "" "" "time" "desc" 50 0)) =
    fst (FindAll_query (mkStockFilter "x'; DROP TABLE stocks; --" "" "" "" "" "" "time" "desc" 50 0)) ∧
  fst (Count_query (mkStockFilter "AAPL" "" "" "" "" "" "time" "desc" 50 0)) =
    fst (Count_query (mkStockFilter "x'; DROP TABLE stocks; --" "" "" "" "" "" "time" "desc" 50 0)).
Proof.
  split; [vm_compute; reflexivity|].
  apply query_text_shape_only. vm_compute. reflexivity.
Defined.

Lemma negative_limit_no_LIMIT_witness :
  ((- 2 ^ 63 <= -1 < 0)%Z ∧ Query [("limit", "-1")] "limit" = Itoa (-1)) ∧
  let f := ListStocks.GetStocks_filter (ListStocks.handler_filter [("limit", "-1")]) in
  Limit f = (-1)%Z ∧
  ∃ w args,
    FindAll_query f =
      (findAll_base ++ w ++ " ORDER BY " ++ order_column f ++ " " ++ order_direction f ++
         (if (0 <? Offset f)%Z then " OFFSET $" ++ string_of_Z (Z.of_nat (length args) + 1) else ""),
       (args ++ (if (0 <? Offset f)%Z then [ArgInt (Offset f)] else []))%list).
Proof.
  split; [split; [lia | vm_compute; reflexivity]|].
  apply negative_limit_no_LIMIT; [lia | vm_compute; reflexivity].
Defined.

End RepoThms.

Module BatchFacts.
Import Batch.

Section Facts.
Context {Row : Type}.
Variable insertChunk : list Row → option string.

Lemma batch_loop_nonempty fuel i stocks :
  fst (batch_loop insertChunk fuel i stocks) ≠ [] → (i < length stocks)%nat.
Proof.
  destruct fuel as [|fuel]; simpl; [done|].
  destruct (i <? length stocks)%nat eqn:Hi; [intros _; by apply Nat.ltb_lt|done].
Qed.

Lemma chunk_split i (stocks : list Row) :
  (i < length stocks)%nat →
  let end_ := if (length stocks <? i + chunkSize)%nat then length stocks else (i + chunkSize)%nat in
  drop i stocks = (take (end_ - i) (drop i stocks) ++ drop (i + chunkSize) stocks)%list ∧
  (1 <= length (take (end_ - i) (drop i stocks)) <= 100)%nat ∧
  ((i + chunkSize < length stocks)%nat → length (take (end_ - i) (drop i stocks)) = 100%nat).
Proof.
  intros Hi end_. unfold end_, chunkSize.
  destruct (length stocks <? i + 100)%nat eqn:E.
  - apply Nat.ltb_lt in E.
    rewrite take_ge by (rewrite length_drop; lia).
    rewrite (drop_ge stocks (i + 100)) by lia. rewrite app_nil_r, length_drop.
    split; [done|]. split; lia.
  - apply Nat.ltb_ge in E.
    replace (i + 100 - i)%nat with 100%nat by lia.
    rewrite length_take, length_drop.
    split; [by rewrite <- drop_drop, take_drop|]. split; lia.
Qed.

Lemma batch_loop_spec fuel i stocks :
  (length stocks <= i + chunkSize * fuel)%nat →
  let r := batch_loop insertChunk fuel i stocks in
  (∀ n c, fst r !! n = Some c →
     (1 <= length c <= 100)%nat ∧ ((S n < length (fst r))%nat → length c = 100%nat ∧ insertChunk c = None)) ∧
  concat (fst r) `prefix_of` drop i stocks ∧
  (snd r = None → concat (fst r) = drop i stocks ∧ Forall (λ c, insertChunk c = None) (fst r)) ∧
  (∀ e, snd r = Some e → ∃ c e', last (fst r) = Some c ∧ insertChunk c = Some e' ∧
                                 e = ("failed to insert batch chunk: " ++ e')%string).
Proof.
  revert i. induction fuel as [|fuel IH]; intros i Hlen r; subst r.
  - simpl. rewrite drop_ge by lia.
    split; [intros n c Hn; by rewrite lookup_nil in Hn|].
    split; [done|]. split; [done|]. by intros e [=].
  - cbn [batch_loop].
    destruct (i <? length stocks)%nat eqn:Hi.
    2:{ apply Nat.ltb_ge in Hi. cbn [fst snd]. rewrite drop_ge by lia.
        split; [intros n c Hn; by rewrite lookup_nil in Hn|].
        split; [done|]. split; [done|]. by intros e [=]. }
    apply Nat.ltb_lt in Hi. cbv zeta.
    destruct (chunk_split i stocks Hi) as (Hsplit & Hb & H100).
    set (chunk := take _ (drop i stocks)) in *.
    destruct (insertChunk chunk) as [err|] eqn:Hc.
    + cbn [fst snd]. split.
      { intros [|n] c Hn; [|simpl in Hn; rewrite ?lookup_nil in Hn; discriminate]. injection Hn as <-. split; [done|simpl; lia]. }
      split; [rewrite Hsplit; simpl; rewrite app_nil_r; by apply prefix_app_r|].
      split; [done|]. intros e [= <-]. by exists chunk, err.
    + specialize (IH (i + chunkSize)%nat). unfold chunkSize in *.
      pose proof (batch_loop_nonempty fuel (i + 100) stocks) as Hne.
      destruct (batch_loop insertChunk fuel (i + 100) stocks) as [calls res] eqn:E.
      cbn [fst snd] in *. destruct (IH ltac:(lia)) as (I1 & I2 & I3 & I4).
      split.
      { intros [|n] c Hn; cbn [length].
        - injection Hn as <-. split; [done|]. intros Hlt. split; [|done].
          apply H100, Hne. destruct calls; [simpl in Hlt; lia|done].
        - simpl in Hn. destruct (I1 n c Hn) as [Ha Hb']. split; [done|]. intros; apply Hb'; lia. }
      split; [rewrite Hsplit; simpl; by apply prefix_app|].
      split.
      { intros Hres. destruct (I3 Hres) as [Hcat Hall]. simpl. rewrite Hcat. split; [done|]. by constructor. }
      intros e He. destruct (I4 e He) as (c & e' & Hlast & Hce & ->).
      exists c, e'. split; [|done]. destruct calls; [done|]. exact Hlast.
Qed.

End Facts.

(** [CreateBatch] sends the rows in order, in chunks of 1 to 100 rows; every
    chunk but the last has 100 rows and was inserted without error; on
    success the chunks make up all the rows (none for an empty input). *)
Theorem CreateBatch_chunks {Row} (insertChunk : list Row → option string) stocks :
  let '(calls, res) := CreateBatch insertChunk stocks in
  concat calls `prefix_of` stocks ∧
  (∀ n c, calls !! n = Some c →
     (1 <= length c <= 100)%nat ∧ ((S n < length calls)%nat → length c = 100%nat ∧ insertChunk c = None)) ∧
  (res = None → concat calls = stocks).
Proof.
  unfold CreateBatch. destruct (length stocks =? 0)%nat eqn:E0.
  - apply Nat.eqb_eq, length_zero_iff_nil in E0. subst stocks.
    split; [done|]. split; [intros n c Hn; by rewrite lookup_nil in Hn|done].
  - destruct (batch_loop_spec insertChunk (length stocks) 0 stocks) as (H1 & H2 & H3 & _);
      [unfold chunkSize; lia|].
    destruct (batch_loop insertChunk (length stocks) 0 stocks) as [calls res].
    cbn [fst snd] in *. rewrite drop_0 in H2, H3.
    split; [done|]. split; [done|]. intros Hr. by apply H3.
Qed.

(** When an insert fails, [CreateBatch] stops: the failing chunk is the last
    one sent, and the error is its message behind
    "failed to insert batch chunk: ". *)
Theorem CreateBatch_error {Row} (insertChunk : list Row → option string) stocks e :
  snd (CreateBatch insertChunk stocks) = Some e →
  ∃ c e', last (fst (CreateBatch insertChunk stocks)) = Some c ∧ insertChunk c = Some e' ∧
          e = ("failed to insert batch chunk: " ++ e')%string.
Proof.
  unfold CreateBatch. destruct (length stocks =? 0)%nat; [by intros [=]|].
  destruct (batch_loop_spec insertChunk (length stocks) 0 stocks) as (_ & _ & _ & H4);
    [unfold chunkSize; lia|].
  apply H4.
Qed.

Lemma CreateBatch_error_witness :
  snd (CreateBatch (fun c => if existsb (Nat.eqb 150) c then Some "duplicate key" else None) (seq 0 250))
    = Some "failed to insert batch chunk: duplicate key" ∧
  ∃ c e', last (fst (CreateBatch (fun c => if existsb (Nat.eqb 150) c then Some "duplicate key" else None) (seq 0 250))) = Some c ∧
          (if existsb (Nat.eqb 150) c then Some "duplicate key" else None) = Some e' ∧
          "failed to insert batch chunk: duplicate key" = ("failed to insert batch chunk: " ++ e')%string.
Proof.
  split; [vm_compute; reflexivity|].
  apply (CreateBatch_error (fun c => if existsb (Nat.eqb 150) c then Some "duplicate key" else None) (seq 0 250)).
  vm_compute. reflexivity.
Defined.

End BatchFacts.

Module ScoringFacts.

(** The brokerage sub-score is one of 5, 6, 8 and 10, and it is 5 exactly
    when the brokerage is blank (white space only, the no-break space U+00A0
    included), below the 6 of an unknown brokerage. *)
Theorem getBrokerageScore_values b :
  getBrokerageScore nbsp = 5%float ∧
  (getBrokerageScore b = 5%float ∨ getBrokerageScore b = 6%float ∨
   getBrokerageScore b = 8%float ∨ getBrokerageScore b = 10%float) ∧
  (getBrokerageScore b = 5%float ↔ TrimSpace b = "").
Proof.
  split; [vm_compute; reflexivity|].
  unfold getBrokerageScore.
  destruct (String.eqb (ToLower (TrimSpace b)) "") eqn:E.
  - apply String.eqb_eq, (proj1 (GoStringsFacts.ToLower_empty _)) in E. split; [tauto|]. split; intros; done.
  - assert (E' : TrimSpace b ≠ "").
    { intros H. rewrite H in E. discriminate. }
    split; [repeat destruct (existsb _ _); tauto|].
    split; [|done].
    repeat destruct (existsb _ _); intros Heq; apply (f_equal Prim2SF) in Heq;
      vm_compute in Heq; discriminate.
Qed.

(** The rating sub-score ranges over [-6, 18]: from "sell" to "strong buy"
    it is 18, from "strong buy" to "sell" it is -6. *)
Theorem getRatingImprovementScore_range r1 r2 :
  (-6 <=? getRatingImprovementScore r1 r2)%float = true ∧
  (getRatingImprovementScore r1 r2 <=? 18)%float = true ∧
  getRatingImprovementScore "sell" "strong buy" = 18%float ∧
  getRatingImprovementScore "strong buy" "sell" = (-6)%float.
Proof.
  split; [|split; [|split; vm_compute; reflexivity]];
  unfold getRatingImprovementScore;
  destruct (SubScores.getRatingValue_cases r1) as [->|[->|[->|[->| ->]]]];
  destruct (SubScores.getRatingValue_cases r2) as [->|[->|[->|[->| ->]]]];
  vm_compute; reflexivity.
Qed.

Lemma TrimSpace_euro s :
  let e := String (ascii_of_nat 226) (String (ascii_of_nat 130) (String (ascii_of_nat 172) s)) in
  TrimSpace e = "" ∨ ∃ r, TrimSpace e = String (ascii_of_nat 226) r.
Proof.
  apply GoStringsFacts.TrimSpace_nonascii_head; [apply Z.leb_le; vm_compute; reflexivity|].
  change (String (ascii_of_nat 226) (String (ascii_of_nat 130) (String (ascii_of_nat 172) s)))
    with (Utf8.EncodeRune 0x20AC ++ s).
  rewrite Utf8Facts.dec_enc by (vm_compute; reflexivity). vm_compute. reflexivity.
Qed.

Lemma ReplaceAll_head c s o old : Ascii.eqb o c = false →
  ∃ r, ReplaceAll_empty (String c s) (String o old) = String c r.
Proof.
  intros H. unfold ReplaceAll_empty. cbn [String.length remove_all_fuel has_prefix].
  rewrite H. by eexists.
Qed.

Lemma ParseFloat_E2 r : ParseFloat (String (ascii_of_nat 226) r) = None.
Proof. destruct r as [|x [|y r]]; vm_compute; reflexivity. Qed.

(** A price written with the euro sign U+20AC (as opposed to the byte
    sequence the code removes) is never parsed: it reads as 0, and the
    target price increase of a pair with such a price is 0. *)
Theorem parsePrice_euro_sign s t :
  parsePrice (euro_sign ++ s) = 0%float ∧
  calculateTargetPriceIncrease (euro_sign ++ s) t = 0%float ∧
  calculateTargetPriceIncrease t (euro_sign ++ s) = 0%float.
Proof.
  assert (P : parsePrice (euro_sign ++ s) = 0%float).
  { unfold parsePrice. cbn [euro_sign append].
    destruct (TrimSpace_euro s) as [-> | [r1 ->]]; [vm_compute; reflexivity|].
    set (E2 := ascii_of_nat 226).
    destruct (ReplaceAll_head E2 r1 "$" "" eq_refl) as [r2 ->].
    unfold euro_literal.
    destruct (ReplaceAll_head E2 r2 (ascii_of_nat 195) (String (ascii_of_nat 162) (String (ascii_of_nat 226)
      (String (ascii_of_nat 128) (String (ascii_of_nat 154) (String (ascii_of_nat 194)
      (String (ascii_of_nat 172) EmptyString)))))) eq_refl) as [r3 ->].
    destruct (ReplaceAll_head E2 r3 "," "" eq_refl) as [r4 ->].
    destruct (ReplaceAll_head E2 r4 " " "" eq_refl) as [r5 ->].
    by rewrite ParseFloat_E2. }
  split; [done|]. unfold calculateTargetPriceIncrease. rewrite P.
  split; [reflexivity|]. by rewrite orb_true_r.
Qed.



Lemma SF64sub_self m e : SF64sub (S754_finite false m e) (S754_finite false m e) = S754_zero false.
Proof.
  unfold SF64sub, SFsub. cbv zeta. rewrite Z.min_id. unfold shl_align. rewrite Z.sub_diag.
  cbn [fst cond_Zopp]. reflexivity.
Qed.

(** A pair of equal target prices that parse to a positive finite number
    gives a target price increase of exactly 0. *)
Theorem calculateTargetPriceIncrease_same s :
  (0 <? parsePrice s)%float = true → (parsePrice s <? infinity)%float = true →
  calculateTargetPriceIncrease s s = 0%float.
Proof.
  intros H1 H2. unfold calculateTargetPriceIncrease. set (p := parsePrice s) in *.
  rewrite FloatAxioms.ltb_spec in H1, H2.
  replace (Prim2SF 0%float) with (S754_zero false) in H1 by (vm_compute; reflexivity).
  replace (Prim2SF infinity) with (S754_infinity false) in H2 by (vm_compute; reflexivity).
  destruct (Prim2SF p) as [sg|sg| |[] m e] eqn:E;
    try (destruct sg); try discriminate H1; try discriminate H2.
  assert (L : (p <=? 0)%float = false).
  { rewrite FloatAxioms.leb_spec, E. reflexivity. }
  rewrite L. cbn [orb].
  rewrite <- (FloatAxioms.SF2Prim_Prim2SF (((p - p) / p) * 100)%float).
  rewrite FloatAxioms.mul_spec, FloatAxioms.div_spec, FloatAxioms.sub_spec, E, SF64sub_self.
  vm_compute. reflexivity.
Qed.

Lemma calculateTargetPriceIncrease_same_witness :
  ((0 <? parsePrice "$200.00")%float = true ∧ (parsePrice "$200.00" <? infinity)%float = true) ∧
  calculateTargetPriceIncrease "$200.00" "$200.00" = 0%float.
Proof.
  split; [split; vm_compute; reflexivity|].
  apply calculateTargetPriceIncrease_same; vm_compute; reflexivity.
Defined.

End ScoringFacts.

Module HandlerFacts.

(** A query parameter holding the decimal rendering of an int64 [n] is read
    back as [n], whatever the default. *)
Theorem parseIntQuery_Itoa params key d n :
  (- 2 ^ 63 <= n < 2 ^ 63)%Z → Query params key = Itoa n → parseIntQuery params key d = n.
Proof. apply DecimalFacts.parseIntQuery_Itoa_aux. Qed.

Lemma parseIntQuery_Itoa_witness :
  ((- 2 ^ 63 <= -42 < 2 ^ 63)%Z ∧ Query [("limit", "-42")] "limit" = Itoa (-42)) ∧
  parseIntQuery [("limit", "-42")] "limit" 50 = (-42)%Z.
Proof.
  split; [split; [lia | vm_compute; reflexivity]|].
  apply parseIntQuery_Itoa; [lia | vm_compute; reflexivity].
Defined.

(** [GET /stocks] with [limit=n] (any int64) and a [FindAll] that succeeds:
    the answer is a page whose metadata reports [n] and the parsed offset,
    while the repository is queried with the use case's limit (50 for 0,
    1000 above 1000, [n] otherwise); the total is [Count]'s result, or 0 when
    [Count] fails, and the page is still returned. *)
Theorem handler_GetStocks_page {Row} (FindAll : Repo.StockFilter → list Row + string)
    (Count : Repo.StockFilter → Z + string) (rows : Repo.StockFilter → list Row) params n :
  (∀ f, FindAll f = inl (rows f)) →
  (- 2 ^ 63 <= n < 2 ^ 63)%Z → Query params "limit" = Itoa n →
  ListStocks.handler_GetStocks FindAll Count params =
    ListStocks.PaginatedResponse (rows (ListStocks.GetStocks_filter (ListStocks.handler_filter params)))
      (ListStocks.mkMetaData
         (match Count (ListStocks.handler_filter params) with inl c => c | inr _ => 0%Z end)
         n (parseIntQuery params "offset" 0)) ∧
  Repo.Limit (ListStocks.GetStocks_filter (ListStocks.handler_filter params)) =
    (if (n =? 0)%Z then 50%Z else if (1000 <? n)%Z then 1000%Z else n).
Proof.
  intros HF Hn Hq.
  assert (L : Repo.Limit (ListStocks.handler_filter params) = n)
    by (cbn [ListStocks.handler_filter Repo.Limit]; by apply DecimalFacts.parseIntQuery_Itoa_aux).
  split.
  - unfold ListStocks.handler_GetStocks, ListStocks.GetStocks, ListStocks.GetStockCount.
    rewrite HF. destruct (Count _); rewrite L; reflexivity.
  - unfold ListStocks.GetStocks_filter. cbv zeta. rewrite L.
    destruct (n =? 0)%Z eqn:E0; cbn [Repo.set_Limit Repo.Limit]; [reflexivity|rewrite L].
    by destruct (1000 <? n)%Z.
Qed.

Lemma handler_GetStocks_page_witness :
  ((∀ f : Repo.StockFilter, (fun _ => inl []) f = @inl (list nat) string ((fun _ => []) f)) ∧
   (- 2 ^ 63 <= 5000 < 2 ^ 63)%Z ∧ Query [("limit", "5000")] "limit" = Itoa 5000) ∧
  (ListStocks.handler_GetStocks (fun _ => inl []) (fun _ => inr "timeout") [("limit", "5000")] =
    @ListStocks.PaginatedResponse nat [] (ListStocks.mkMetaData 0 5000 0) ∧
   Repo.Limit (ListStocks.GetStocks_filter (ListStocks.handler_filter [("limit", "5000")])) = 1000%Z).
Proof.
  split; [split; [reflexivity | split; [lia | vm_compute; reflexivity]]|].
  exact (handler_GetStocks_page (fun _ => inl []) (fun _ => inr "timeout") (fun _ => []) [("limit", "5000")] 5000
           (fun _ => eq_refl) ltac:(lia) ltac:(vm_compute; reflexivity)).
Defined.

(** With a positive [limit], the recommendations are the first [limit]
    entries of the full ranking (the one for [limit <= 0]). *)
Theorem GetRecommendations_prefix clock stocks limit :
  (0 < limit)%Z →
  GetRecommendations clock stocks limit = take (Z.to_nat limit) (GetRecommendations clock stocks 0).
Proof.
  intros Hl. unfold GetRecommendations. destruct stocks as [|s0 rest] eqn:Hs; [by rewrite take_nil|].
  rewrite <- Hs.
  assert (Hlen : length (ExchangeSort.exchange_sort score_gt (scored clock stocks)) = length stocks)
    by (rewrite (Permutation_length (ExchangeSortFacts.exchange_sort_perm _ _)); apply Ranking.scored_length).
  cbn [andb Z.ltb Z.compare].
  destruct ((0 <? limit)%Z && _) eqn:E; [reflexivity|].
  rewrite take_ge; [reflexivity|].
  apply andb_false_iff in E as [E|E]; [apply Z.ltb_ge in E; lia|].
  apply Z.ltb_ge in E. rewrite Hlen in E |- *. lia.
Qed.

Lemma GetRecommendations_prefix_witness :
  (0 < 1)%Z ∧
  GetRecommendations clock0 [plain_stock "A" "hold"; plain_stock "B" "upgrade"] 1 =
    take (Z.to_nat 1) (GetRecommendations clock0 [plain_stock "A" "hold"; plain_stock "B" "upgrade"] 0).
Proof. split; [lia|]. apply GetRecommendations_prefix. lia. Defined.

End HandlerFacts.

Module SyncFacts.
Import Batch.

Lemma concat_length_100 {A} (done : list (list A)) :
  Forall (λ c, length c = 100%nat) done → length (concat done) = (100 * length done)%nat.
Proof. induction 1 as [|c done Hc _ IH]; simpl; [done|]. rewrite length_app, Hc, IH. lia. Qed.

(** [SyncStocksFromAPI] on fetched stocks: on success it reports their number
    and every stock was sent; on a failed chunk it reports 0 and the wrapped
    error, although the chunks before the failing one, [100 * k] stocks from
    the start of the list, were inserted by their own successful calls. *)
Theorem SyncStocksFromAPI_result {Row} (stocks : list Row) insertChunk :
  let '(count, err, calls) := Sync.SyncStocksFromAPI (inl stocks) insertChunk in
  (err = None → count = Z.of_nat (length stocks) ∧ concat calls = stocks) ∧
  (∀ e, err = Some e → count = 0%Z ∧
     ∃ done c e', calls = (done ++ [c])%list ∧ insertChunk c = Some e' ∧
       e = ("failed to store stocks: failed to insert batch chunk: " ++ e')%string ∧
       Forall (λ c, insertChunk c = None) done ∧
       concat done = take (100 * length done) stocks).
Proof.
  unfold Sync.SyncStocksFromAPI, CreateBatch.
  destruct (length stocks =? 0)%nat eqn:E0.
  { apply Nat.eqb_eq, length_zero_iff_nil in E0. subst stocks. split; [done|]. by intros e [=]. }
  destruct (BatchFacts.batch_loop_spec insertChunk (length stocks) 0 stocks) as (H1 & H2 & H3 & H4);
    [unfold chunkSize; lia|].
  destruct (batch_loop insertChunk (length stocks) 0 stocks) as [calls res].
  cbn [fst snd] in *. rewrite drop_0 in H2, H3.
  destruct res as [e0|].
  - split; [done|]. intros e [= <-]. split; [done|].
    destruct (H4 e0 eq_refl) as (c & e' & Hlast & Hc & ->).
    apply last_Some in Hlast as [done ->].
    exists done, c, e'. split; [done|]. split; [done|]. split; [reflexivity|].
    assert (Hd : ∀ n c', done !! n = Some c' → length c' = 100%nat ∧ insertChunk c' = None).
    { intros n c' Hn. apply (H1 n c').
      - by apply lookup_app_l_Some.
      - apply lookup_lt_Some in Hn. rewrite length_app. simpl. lia. }
    split; [apply Forall_lookup_2; intros n c' Hn; apply (Hd n c' Hn)|].
    rewrite concat_app in H2. apply prefix_app_l in H2 as [k Hk].
    rewrite Hk, <- (concat_length_100 done).
    + by rewrite take_app_length.
    + apply Forall_lookup_2. intros n c' Hn. apply (Hd n c' Hn).
  - split; [|by intros e [=]]. intros _. split; [done|]. by apply H3.
Qed.

End SyncFacts.

Module LookupFacts.
Import Lookup.


(** [GET /stocks/{id}] with the decimal rendering of an int64 [id] looks up
    exactly [id]: a missing row is a 404 "resource not found", a database
    error a 500 with the wrapped message, a found row is returned. *)
Theorem handler_GetStockByID_Itoa {Row} (db : Z → IdRow (Row := Row)) id :
  (- 2 ^ 63 <= id < 2 ^ 63)%Z →
  handler_GetStockByID db (Itoa id) =
    match db id with
    | NoRows => ErrorReply 404 "resource not found"
    | RowFailed e => ErrorReply 500 ("failed to find stock: " ++ e)
    | Found row => DataReply row
    end.
Proof.
  intros Hid. unfold handler_GetStockByID. rewrite DecimalFacts.Atoi_Itoa by done.
  unfold FindByID. by destruct (db id).
Qed.

Lemma handler_GetStockByID_Itoa_witness :
  (- 2 ^ 63 <= 42 < 2 ^ 63)%Z ∧
  handler_GetStockByID (fun n => if (n =? 42)%Z then Found "AAPL" else NoRows) (Itoa 42) =
    DataReply "AAPL".
Proof.
  split; [lia|].
  exact (handler_GetStockByID_Itoa (fun n => if (n =? 42)%Z then Found "AAPL" else NoRows) 42 ltac:(lia)).
Defined.

End LookupFacts.
